(** * A static analyzer for Python snippets: the [CodeDebugger] class of main.py

    The analyzer parses a snippet with [ast.parse] and runs six passes over the
    tree, each a loop over [ast.walk].  The tree type, [ast.walk] and the
    analyzer's methods are embedded below; the parser itself and the key set of
    the [builtins] module belong to the Python runtime and are parameters of
    the development. *)

From Stdlib Require Import ZArith List Lia SpecFloat Ascii.
From Stdlib Require DecimalString.
From stdpp Require Import gmap strings list.

Local Open Scope Z_scope.
Set Warnings "-register-all".

(** ** The syntax tree

    The fragment of Python's [ast] node classes that the analyzer inspects,
    with the statement and expression forms needed to write ordinary snippets
    around them.  Field order follows each class's [_fields], since that is the
    order in which [ast.iter_child_nodes] visits the children.  Function
    definitions carry plain positional parameters ([args.args], the only
    parameter list the analyzer reads) and their defaults. *)

Inductive expr_context : Set := Load | Store | Del.

Inductive operator : Set :=
  | Add | Sub | Mult | MatMult | Div | Mod | Pow
  | LShift | RShift | BitOr | BitXor | BitAnd | FloorDiv.

Inductive unaryop : Set := Invert | Not | UAdd | USub.

Inductive cmpop : Set :=
  | Eq | NotEq | Lt | LtE | Gt | GtE | Is | IsNot | CmpIn | NotIn.

(** The value carried by an [ast.Constant].  A float literal is an IEEE 754
    value; an imaginary literal is a complex number whose real part is zero. *)
Inductive constant : Set :=
  | VNone
  | VBool (b : bool)
  | VInt (n : Z)
  | VFloat (f : spec_float)
  | VComplex (imag : spec_float)
  | VStr (s : string)
  | VBytes (s : string)
  | VEllipsis.

Inductive expr : Set :=
  | BinOp (lineno : Z) (left : expr) (op : operator) (right : expr)
  | UnaryOp (lineno : Z) (op : unaryop) (operand : expr)
  | Compare (lineno : Z) (left : expr) (ops : list cmpop) (comparators : list expr)
  | Call (lineno : Z) (func : expr) (args : list expr)
         (keywords : list (option string * expr))
  | Constant (lineno : Z) (value : constant)
  | Attribute (lineno : Z) (value : expr) (attr : string) (ctx : expr_context)
  | Subscript (lineno : Z) (value : expr) (slice : expr) (ctx : expr_context)
  | Name (lineno : Z) (id : string) (ctx : expr_context)
  | List (lineno : Z) (elts : list expr) (ctx : expr_context)
  | Tuple (lineno : Z) (elts : list expr) (ctx : expr_context).

Definition keyword : Set := (option string * expr)%type.

Record arg : Set := mk_arg {
  arg_lineno : Z;
  arg_arg : string;
  arg_annotation : option expr
}.

Record arguments : Set := mk_arguments {
  arguments_args : list arg;
  arguments_defaults : list expr
}.

Record alias : Set := mk_alias {
  alias_name : string;
  alias_asname : option string
}.

Inductive stmt : Set :=
  | FunctionDef (lineno : Z) (name : string) (args : arguments)
                (body : list stmt) (decorator_list : list expr)
                (returns : option expr)
  | Return (lineno : Z) (value : option expr)
  | Assign (lineno : Z) (targets : list expr) (value : expr)
  | AugAssign (lineno : Z) (target : expr) (op : operator) (value : expr)
  | For (lineno : Z) (target : expr) (iter : expr)
        (body : list stmt) (orelse : list stmt)
  | While (lineno : Z) (test : expr) (body : list stmt) (orelse : list stmt)
  | If (lineno : Z) (test : expr) (body : list stmt) (orelse : list stmt)
  | Import (lineno : Z) (names : list alias)
  | ImportFrom (lineno : Z) (module : option string) (names : list alias)
               (level : Z)
  | Expr (lineno : Z) (value : expr)
  | Pass (lineno : Z).

(** The root of a parsed snippet. *)
Inductive mod_ : Set := Module (body : list stmt).

(** Every object that [ast.walk] can yield is an instance of [ast.AST]; the
    analyzer tells them apart with [isinstance]. *)
Inductive node : Set :=
  | NModule (m : mod_)
  | NStmt (s : stmt)
  | NExpr (e : expr)
  | NArguments (a : arguments)
  | NArg (a : arg)
  | NKeyword (k : keyword)
  | NAlias (a : alias)
  | NContext (c : expr_context)
  | NOperator (o : operator)
  | NUnaryop (o : unaryop)
  | NCmpop (o : cmpop).

Definition opt_expr (o : option expr) : list node :=
  match o with Some e => [NExpr e] | None => [] end.

(** [ast.iter_child_nodes]: the AST-valued fields of a node, lists flattened,
    in field order. *)
Definition iter_child_nodes (n : node) : list node :=
  match n with
  | NModule (Module body) => map NStmt body
  | NStmt s =>
      match s with
      | FunctionDef _ _ args body decorator_list returns =>
          NArguments args :: map NStmt body ++ map NExpr decorator_list
            ++ opt_expr returns
      | Return _ value => opt_expr value
      | Assign _ targets value => map NExpr targets ++ [NExpr value]
      | AugAssign _ target op value => [NExpr target; NOperator op; NExpr value]
      | For _ target iter body orelse =>
          NExpr target :: NExpr iter :: map NStmt body ++ map NStmt orelse
      | While _ test body orelse =>
          NExpr test :: map NStmt body ++ map NStmt orelse
      | If _ test body orelse =>
          NExpr test :: map NStmt body ++ map NStmt orelse
      | Import _ names => map NAlias names
      | ImportFrom _ _ names _ => map NAlias names
      | Expr _ value => [NExpr value]
      | Pass _ => []
      end
  | NExpr e =>
      match e with
      | BinOp _ lhs op rhs => [NExpr lhs; NOperator op; NExpr rhs]
      | UnaryOp _ op operand => [NUnaryop op; NExpr operand]
      | Compare _ lhs ops comparators =>
          NExpr lhs :: map NCmpop ops ++ map NExpr comparators
      | Call _ func args keywords =>
          NExpr func :: map NExpr args ++ map NKeyword keywords
      | Constant _ _ => []
      | Attribute _ value _ ctx => [NExpr value; NContext ctx]
      | Subscript _ value slice ctx => [NExpr value; NExpr slice; NContext ctx]
      | Name _ _ ctx => [NContext ctx]
      | List _ elts ctx => map NExpr elts ++ [NContext ctx]
      | Tuple _ elts ctx => map NExpr elts ++ [NContext ctx]
      end
  | NArguments a =>
      map NArg (arguments_args a) ++ map NExpr (arguments_defaults a)
  | NArg a => opt_expr (arg_annotation a)
  | NKeyword k => [NExpr (snd k)]
  | NAlias _ | NContext _ | NOperator _ | NUnaryop _ | NCmpop _ => []
  end.

(** Number of nodes of a tree; it bounds the number of iterations of
    [ast.walk]. *)
Fixpoint expr_size (e : expr) : nat :=
  match e with
  | BinOp _ lhs _ rhs => S (expr_size lhs + 1 + expr_size rhs)
  | UnaryOp _ _ operand => S (1 + expr_size operand)
  | Compare _ lhs ops comparators =>
      S (expr_size lhs + length ops + list_sum (map expr_size comparators))
  | Call _ func args keywords =>
      S (expr_size func + list_sum (map expr_size args)
         + list_sum (map (fun k => S (expr_size (snd k))) keywords))
  | Constant _ _ => 1%nat
  | Attribute _ value _ _ => S (expr_size value + 1)
  | Subscript _ value slice _ => S (expr_size value + expr_size slice + 1)
  | Name _ _ _ => 2%nat
  | List _ elts _ => S (list_sum (map expr_size elts) + 1)
  | Tuple _ elts _ => S (list_sum (map expr_size elts) + 1)
  end.

Definition opt_expr_size (o : option expr) : nat :=
  match o with Some e => expr_size e | None => O end.

Definition arg_size (a : arg) : nat := S (opt_expr_size (arg_annotation a)).

Definition arguments_size (a : arguments) : nat :=
  S (list_sum (map arg_size (arguments_args a))
     + list_sum (map expr_size (arguments_defaults a))).

Fixpoint stmt_size (s : stmt) : nat :=
  match s with
  | FunctionDef _ _ args body decorator_list returns =>
      S (arguments_size args + list_sum (map stmt_size body)
         + list_sum (map expr_size decorator_list) + opt_expr_size returns)
  | Return _ value => S (opt_expr_size value)
  | Assign _ targets value =>
      S (list_sum (map expr_size targets) + expr_size value)
  | AugAssign _ target _ value => S (expr_size target + 1 + expr_size value)
  | For _ target iter body orelse =>
      S (expr_size target + expr_size iter + list_sum (map stmt_size body)
         + list_sum (map stmt_size orelse))
  | While _ test body orelse =>
      S (expr_size test + list_sum (map stmt_size body)
         + list_sum (map stmt_size orelse))
  | If _ test body orelse =>
      S (expr_size test + list_sum (map stmt_size body)
         + list_sum (map stmt_size orelse))
  | Import _ names => S (length names)
  | ImportFrom _ _ names _ => S (length names)
  | Expr _ value => S (expr_size value)
  | Pass _ => 1%nat
  end.

Definition node_size (n : node) : nat :=
  match n with
  | NModule (Module body) => S (list_sum (map stmt_size body))
  | NStmt s => stmt_size s
  | NExpr e => expr_size e
  | NArguments a => arguments_size a
  | NArg a => arg_size a
  | NKeyword k => S (expr_size (snd k))
  | NAlias _ | NContext _ | NOperator _ | NUnaryop _ | NCmpop _ => 1%nat
  end.

(** [ast.walk]: breadth-first, a queue from which the front node is popped,
    its children appended at the back, and the node yielded. *)
Fixpoint walk_queue (fuel : nat) (todo : list node) : list node :=
  match fuel with
  | O => []
  | S fuel' =>
      match todo with
      | [] => []
      | n :: rest => n :: walk_queue fuel' (rest ++ iter_child_nodes n)
      end
  end.

Definition walk (n : node) : list node := walk_queue (node_size n) [n].

(** [d] is [n] or lies below it. *)
Inductive descendant : node -> node -> Prop :=
  | descendant_self n : descendant n n
  | descendant_child n c d :
      In c (iter_child_nodes n) -> descendant c d -> descendant n d.

(** ** Text helpers *)

(** [str(n)] for an integer. *)
Definition str_of_int (n : Z) : string :=
  DecimalString.NilZero.string_of_int (Z.to_int n).

(** The rendering of [e.lineno] inside an f-string: an integer or [None]. *)
Definition str_of_lineno (l : option Z) : string :=
  match l with Some n => str_of_int n | None => "None" end.

(** ASCII characters for which [str.isspace] holds. *)
Definition isspace (c : ascii) : bool :=
  let n := Ascii.N_of_ascii c in
  ((9 <=? n) && (n <=? 13) || (28 <=? n) && (n <=? 32))%N.

Fixpoint lstrip (s : string) : string :=
  match s with
  | String c r => if isspace c then lstrip r else s
  | EmptyString => EmptyString
  end.

Fixpoint rstrip (s : string) : string :=
  match s with
  | EmptyString => EmptyString
  | String c r =>
      match rstrip r with
      | EmptyString => if isspace c then EmptyString else String c EmptyString
      | r' => String c r'
      end
  end.

(** [str.strip()]. *)
Definition strip (s : string) : string := rstrip (lstrip s).

(** [s.split('.')]: the segments between dots; never empty. *)
Fixpoint split_dot (s : string) : list string :=
  match s with
  | EmptyString => [EmptyString]
  | String c r =>
      if Ascii.eqb c "."%char then EmptyString :: split_dot r
      else match split_dot r with
           | h :: t => String c h :: t
           | [] => [String c EmptyString]
           end
  end.

(** [s.split('.')[0]] *)
Definition first_segment (s : string) : string := hd EmptyString (split_dot s).

(** [s.split('.')[-1]] *)
Definition last_segment (s : string) : string :=
  List.last (split_dot s) EmptyString.

(** [asname or fallback]: [None] and the empty string are falsy. *)
Definition or_else (asname : option string) (fallback : string) : string :=
  match asname with
  | Some (String _ _ as s) => s
  | _ => fallback
  end.

(** ** Dictionaries

    A Python [dict] iterates in insertion order, and assigning to a key that
    is present keeps its position: an association list with unique keys. *)

Fixpoint dict_set {V : Type} (d : list (string * V)) (k : string) (v : V)
  : list (string * V) :=
  match d with
  | [] => [(k, v)]
  | (k', v') :: r =>
      if decide (k' = k) then (k', v) :: r else (k', v') :: dict_set r k v
  end.

Fixpoint dict_get {V : Type} (d : list (string * V)) (k : string) : option V :=
  match d with
  | [] => None
  | (k', v') :: r => if decide (k' = k) then Some v' else dict_get r k
  end.

(** ** Constants *)

Definition float_is_zero (f : spec_float) : bool :=
  match f with S754_zero _ => true | _ => false end.

(** [value == 0] for the value of a literal. *)
Definition constant_eq_zero (v : constant) : bool :=
  match v with
  | VBool b => negb b
  | VInt n => n =? 0
  | VFloat f => float_is_zero f
  | VComplex imag => float_is_zero imag
  | VNone | VStr _ | VBytes _ | VEllipsis => false
  end.

(** ** The analyzer object *)

Record CodeDebugger : Type := mk_CodeDebugger {
  code : string;
  tree : option mod_;
  errors : list string;
  optimizations : list string;
  suggestions : list string
}.

(** The dictionary [analyze] returns. *)
Record results : Type := mk_results {
  res_errors : list string;
  res_optimizations : list string;
  res_suggestions : list string
}.

(** What [ast.parse] does on a text: a tree, a [SyntaxError] (or its
    subclasses [IndentationError] and [TabError]) with [str(e)] and
    [e.lineno], or another exception with [str(e)]. *)
Inductive parse_outcome : Type :=
  | Parsed (t : mod_)
  | RaisesSyntaxError (msg : string) (lineno : option Z)
  | RaisesException (msg : string).

(** [__init__] *)
Definition init (code_string : string) : CodeDebugger :=
  {| code := strip code_string; tree := None;
     errors := []; optimizations := []; suggestions := [] |}.

(** [self.errors.append(msg)] and its two siblings. *)
Definition errors_append (msg : string) (self : CodeDebugger) : CodeDebugger :=
  {| code := code self; tree := tree self;
     errors := errors self ++ [msg];
     optimizations := optimizations self; suggestions := suggestions self |}.

Definition optimizations_append (msg : string) (self : CodeDebugger)
  : CodeDebugger :=
  {| code := code self; tree := tree self;
     errors := errors self;
     optimizations := optimizations self ++ [msg];
     suggestions := suggestions self |}.

Definition suggestions_append (msg : string) (self : CodeDebugger)
  : CodeDebugger :=
  {| code := code self; tree := tree self;
     errors := errors self;
     optimizations := optimizations self;
     suggestions := suggestions self ++ [msg] |}.

(** A pass body [for node in ast.walk(self.tree): ...] guarded by
    [if not self.tree: return]. *)
Definition for_each_node (step : CodeDebugger -> node -> CodeDebugger)
    (self : CodeDebugger) : CodeDebugger :=
  match tree self with
  | None => self
  | Some t => fold_left step (walk (NModule t)) self
  end.

(** ** The methods of [CodeDebugger] *)

Section Analyzer.

(** [ast.parse(text, filename="<user_code>")], supplied by the runtime. *)
Variable ast_parse : string -> parse_outcome.

(** [set(__import__("builtins").__dict__.keys())], supplied by the runtime. *)
Variable builtins_keys : gset string.

Definition parse_code (self : CodeDebugger) : bool * CodeDebugger :=
  match ast_parse (code self) with
  | Parsed t =>
      (true, {| code := code self; tree := Some t; errors := errors self;
                optimizations := optimizations self;
                suggestions := suggestions self |})
  | RaisesSyntaxError msg lineno =>
      (false, errors_append ("SyntaxError: " +:+ msg +:+ " at line "
                               +:+ str_of_lineno lineno) self)
  | RaisesException msg =>
      (false, errors_append ("Unexpected error during parsing: " +:+ msg) self)
  end.

(** *** Undefined variables *)

Definition builtins : gset string :=
  builtins_keys ∪ ({["True"]} ∪ {["False"]} ∪ {["None"]}).

(** The body of the first loop; the accumulator is
    [(defined_names, imported_names)]. *)
Definition collect_names (acc : gset string * gset string) (n : node)
  : gset string * gset string :=
  let '(defined_names, imported_names) := acc in
  match n with
  | NStmt (Import _ names) =>
      (defined_names,
       fold_left (fun s a =>
                    {[or_else (alias_asname a) (first_segment (alias_name a))]}
                      ∪ s) names imported_names)
  | NStmt (ImportFrom _ _ names _) =>
      (defined_names,
       fold_left (fun s a => {[or_else (alias_asname a) (alias_name a)]} ∪ s)
                 names imported_names)
  | NExpr (Name _ id Store) => ({[id]} ∪ defined_names, imported_names)
  | NStmt (FunctionDef _ name args _ _ _) =>
      (fold_left (fun s a => {[arg_arg a]} ∪ s) (arguments_args args)
                 ({[name]} ∪ defined_names),
       imported_names)
  | _ => acc
  end.

Definition undefined_message (id : string) (lineno : Z) : string :=
  "Undefined variable '" +:+ id +:+ "' used at line " +:+ str_of_int lineno
    +:+ ". Fix: Define '" +:+ id +:+ "' before use.".

(** The body of the second loop. *)
Definition undefined_step (defined_names imported_names : gset string)
    (self : CodeDebugger) (n : node) : CodeDebugger :=
  match n with
  | NExpr (Name lineno id Load) =>
      if bool_decide (id ∉ defined_names) && bool_decide (id ∉ builtins)
         && bool_decide (id ∉ imported_names)
      then errors_append (undefined_message id lineno) self
      else self
  | _ => self
  end.

(** The two sets once the first loop has finished. *)
Definition name_sets (t : mod_) : gset string * gset string :=
  fold_left collect_names (walk (NModule t)) (∅, ∅).

Definition check_undefined_variables (self : CodeDebugger) : CodeDebugger :=
  match tree self with
  | None => self
  | Some t =>
      let '(defined_names, imported_names) := name_sets t in
      fold_left (undefined_step defined_names imported_names)
                (walk (NModule t)) self
  end.

(** The [(id, lineno)] pairs for which the second loop appends a message, in
    the order it meets them. *)
Definition undefined_reports (t : mod_) : list (string * Z) :=
  let '(defined_names, imported_names) := name_sets t in
  flat_map (fun n =>
              match n with
              | NExpr (Name lineno id Load) =>
                  if bool_decide (id ∉ defined_names)
                     && bool_decide (id ∉ builtins)
                     && bool_decide (id ∉ imported_names)
                  then [(id, lineno)] else []
              | _ => []
              end) (walk (NModule t)).

(** *** Unused variables *)

(** The body of the collecting loop; the accumulator is
    [(defined_names, used_names, function_names)]. *)
Definition collect_usage (acc : list (string * Z) * gset string * gset string)
    (n : node) : list (string * Z) * gset string * gset string :=
  let '(defined_names, used_names, function_names) := acc in
  match n with
  | NStmt (FunctionDef _ name args _ _ _) =>
      (fold_left (fun d a => dict_set d (arg_arg a) (arg_lineno a))
                 (arguments_args args) defined_names,
       used_names, {[name]} ∪ function_names)
  | NExpr (Name lineno id Store) =>
      (dict_set defined_names id lineno, used_names, function_names)
  | NExpr (Name _ id Load) =>
      (defined_names, {[id]} ∪ used_names, function_names)
  | _ => acc
  end.

Definition unused_message (name : string) (lineno : Z) : string :=
  "Unused variable '" +:+ name +:+ "' defined at line " +:+ str_of_int lineno
    +:+ ".".

(** The body of the reporting loop over [defined_names.items()]. *)
Definition unused_step (used_names function_names : gset string)
    (self : CodeDebugger) (item : string * Z) : CodeDebugger :=
  let '(name, lineno) := item in
  if bool_decide (name ∉ used_names) && bool_decide (name ∉ function_names)
  then errors_append (unused_message name lineno) self
  else self.

(** The dictionary and the two sets once the collecting loop has finished. *)
Definition usage_sets (t : mod_)
  : list (string * Z) * gset string * gset string :=
  fold_left collect_usage (walk (NModule t)) ([], ∅, ∅).

Definition check_unused_variables (self : CodeDebugger) : CodeDebugger :=
  match tree self with
  | None => self
  | Some t =>
      let '(defined_names, used_names, function_names) := usage_sets t in
      fold_left (unused_step used_names function_names) defined_names self
  end.

(** The items of [defined_names] for which the reporting loop appends a
    message, in dictionary order. *)
Definition unused_reports (t : mod_) : list (string * Z) :=
  let '(defined_names, used_names, function_names) := usage_sets t in
  List.filter (fun item : string * Z =>
                 bool_decide (item.1 ∉ used_names)
                 && bool_decide (item.1 ∉ function_names)) defined_names.

(** *** Division by zero *)

Definition is_division (op : operator) : bool :=
  match op with Div | FloorDiv | Mod => true | _ => false end.

Definition division_error (lineno : Z) : string :=
  "Division by zero at line " +:+ str_of_int lineno
    +:+ ". Fix: Avoid dividing by zero.".

Definition division_suggestion (lineno : Z) (id : string) : string :=
  "Line " +:+ str_of_int lineno +:+ ": Add check to ensure '" +:+ id
    +:+ "' is not zero before division.".

Definition division_step (self : CodeDebugger) (n : node) : CodeDebugger :=
  match n with
  | NExpr (BinOp lineno _ op rhs) =>
      if is_division op then
        match rhs with
        | Constant _ v =>
            if constant_eq_zero v then errors_append (division_error lineno) self
            else self
        | Name _ id _ => suggestions_append (division_suggestion lineno id) self
        | _ => self
        end
      else self
  | _ => self
  end.

Definition check_division_by_zero : CodeDebugger -> CodeDebugger :=
  for_each_node division_step.

(** *** Inefficient loops *)

(** [isinstance(e, ast.Call) and isinstance(e.func, ast.Name) and
    e.func.id == fname] *)
Definition is_call_to (fname : string) (e : expr) : bool :=
  match e with
  | Call _ (Name _ id _) _ _ => bool_decide (id = fname)
  | _ => false
  end.

Definition is_aug_add (s : stmt) : bool :=
  match s with AugAssign _ _ Add _ => true | _ => false end.

Definition is_append_call (n : node) : bool :=
  match n with NExpr e => is_call_to "append" e | _ => false end.

Definition sum_message (lineno : Z) : string :=
  "Line " +:+ str_of_int lineno
    +:+ ": Replace loop with sum(range(...)) for efficiency.".

Definition comprehension_message (lineno : Z) : string :=
  "Line " +:+ str_of_int lineno
    +:+ ": Consider using a list comprehension for efficiency if applicable.".

Definition loops_step (self : CodeDebugger) (n : node) : CodeDebugger :=
  match n with
  | NStmt (For lineno _ iter body _) =>
      if is_call_to "range" iter then
        let is_simple_sum := forallb is_aug_add body in
        if is_simple_sum then optimizations_append (sum_message lineno) self
        else self
      else if existsb is_append_call (walk n) then
        optimizations_append (comprehension_message lineno) self
      else self
  | _ => self
  end.

Definition check_inefficient_loops : CodeDebugger -> CodeDebugger :=
  for_each_node loops_step.

(** *** Redundant code *)

Definition redundant_assignment_message (target : string) (lineno : Z)
  : string :=
  "Redundant assignment '" +:+ target +:+ " = " +:+ target +:+ "' at line "
    +:+ str_of_int lineno +:+ ". Fix: Remove this line.".

Definition redundant_operation_message (target : string) (lineno : Z)
  : string :=
  "Redundant operation '" +:+ target +:+ " = " +:+ target +:+ " + 0' at line "
    +:+ str_of_int lineno +:+ ". Fix: Remove this line.".

Definition redundant_step (self : CodeDebugger) (n : node) : CodeDebugger :=
  match n with
  | NStmt (Assign lineno [Name _ target _] value) =>
      match value with
      | Name _ id _ =>
          if bool_decide (id = target)
          then errors_append (redundant_assignment_message target lineno) self
          else self
      | BinOp _ _ Add (Constant _ v) =>
          if constant_eq_zero v
          then errors_append (redundant_operation_message target lineno) self
          else self
      | _ => self
      end
  | _ => self
  end.

Definition check_redundant_code : CodeDebugger -> CodeDebugger :=
  for_each_node redundant_step.

(** *** Type hints *)

(** The [isinstance] chain on the value of a returned literal; [bool] is a
    subclass of [int]. *)
Definition constant_label (v : constant) (return_type : string) : string :=
  match v with
  | VBool _ | VInt _ => "int"
  | VFloat _ => "float"
  | VStr _ => "str"
  | VNone | VComplex _ | VBytes _ | VEllipsis => return_type
  end.

(** The loop [for ret_node in ast.walk(node)] with its [break]. *)
Fixpoint infer_return_type (nodes : list node) (return_type : string)
  : string :=
  match nodes with
  | [] => return_type
  | NStmt (Return _ (Some value)) :: _ =>
      match value with
      | Constant _ v => constant_label v return_type
      | List _ _ _ => "list"
      | _ => return_type
      end
  | _ :: rest => infer_return_type rest return_type
  end.

Definition is_name (id : string) (e : expr) : bool :=
  match e with Name _ id' _ => bool_decide (id' = id) | _ => false end.

Definition is_arithmetic (op : operator) : bool :=
  match op with Add | Sub | Mult => true | _ => false end.

(** The body of the loop [for body_node in ast.walk(node)]. *)
Definition infer_param_step (params : list arg)
    (param_types : list (string * string)) (n : node)
  : list (string * string) :=
  match n with
  | NExpr (BinOp _ lhs op rhs) =>
      if is_arithmetic op then
        fold_left (fun pt a =>
                     if is_name (arg_arg a) lhs || is_name (arg_arg a) rhs
                     then dict_set pt (arg_arg a) "int" else pt)
                  params param_types
      else param_types
  | _ => param_types
  end.

Definition return_hint (lineno : Z) (name return_type : string) : string :=
  "Line " +:+ str_of_int lineno +:+ ": Add type hint for return value of '"
    +:+ name +:+ "' (e.g., -> " +:+ return_type +:+ ").".

Definition param_hint (lineno : Z) (param name param_type : string) : string :=
  "Line " +:+ str_of_int lineno +:+ ": Add type hint for parameter '"
    +:+ param +:+ "' in '" +:+ name +:+ "' (e.g., " +:+ param +:+ ": "
    +:+ param_type +:+ ").".

(** The body of the final loop over the parameters; [param_types] holds a
    label for each of them. *)
Definition param_hint_step (name : string) (param_types : list (string * string))
    (self : CodeDebugger) (a : arg) : CodeDebugger :=
  match arg_annotation a with
  | None =>
      suggestions_append
        (param_hint (arg_lineno a) (arg_arg a) name
           (default "Any" (dict_get param_types (arg_arg a))))
        self
  | Some _ => self
  end.

Definition type_hints_step (self : CodeDebugger) (n : node) : CodeDebugger :=
  match n with
  | NStmt (FunctionDef lineno name args _ _ returns) =>
      let params := arguments_args args in
      let return_type := infer_return_type (walk n) "Any" in
      let param_types :=
        fold_left (infer_param_step params) (walk n)
          (fold_left (fun d a => dict_set d (arg_arg a) "Any") params []) in
      let self :=
        match returns with
        | None => suggestions_append (return_hint lineno name return_type) self
        | Some _ => self
        end in
      fold_left (param_hint_step name param_types) params self
  | _ => self
  end.

Definition suggest_type_hints : CodeDebugger -> CodeDebugger :=
  for_each_node type_hints_step.

(** *** The coordinator *)

Definition analyze (self : CodeDebugger) : results * CodeDebugger :=
  let '(ok, self) := parse_code self in
  if negb ok then
    ({| res_errors := errors self; res_optimizations := [];
        res_suggestions := [] |}, self)
  else
    let self := check_undefined_variables self in
    let self := check_unused_variables self in
    let self := check_division_by_zero self in
    let self := check_inefficient_loops self in
    let self := check_redundant_code self in
    let self := suggest_type_hints self in
    ({| res_errors := errors self; res_optimizations := optimizations self;
        res_suggestions := suggestions self |}, self).

End Analyzer.

(** ** Sample programs

    The three snippets of [debug_multiple_samples], with the trees that
    [ast.parse] builds for the first two. *)

Definition sample1_code : string :=
"
def calculate_sum(a, b):
    unused_var = 42
    result = a + b
    print(x)  # Undefined variable
    for i in range(1000000):
        result += i  # Inefficient loop
    result = result  # Redundant
    risky = 10 / 0  # Division by zero
    return result
            ".

Definition sample1_tree : mod_ :=
  Module
    [FunctionDef 1 "calculate_sum"
       (mk_arguments [mk_arg 1 "a" None; mk_arg 1 "b" None] [])
       [Assign 2 [Name 2 "unused_var" Store] (Constant 2 (VInt 42));
        Assign 3 [Name 3 "result" Store]
          (BinOp 3 (Name 3 "a" Load) Add (Name 3 "b" Load));
        Expr 4 (Call 4 (Name 4 "print" Load) [Name 4 "x" Load] []);
        For 5 (Name 5 "i" Store)
          (Call 5 (Name 5 "range" Load) [Constant 5 (VInt 1000000)] [])
          [AugAssign 6 (Name 6 "result" Store) Add (Name 6 "i" Load)] [];
        Assign 7 [Name 7 "result" Store] (Name 7 "result" Load);
        Assign 8 [Name 8 "risky" Store]
          (BinOp 8 (Constant 8 (VInt 10)) Div (Constant 8 (VInt 0)));
        Return 9 (Some (Name 9 "result" Load))]
       [] None].

Definition sample2_code : string :=
"
def multiply(x, y):
    z = x * y
    return z
            ".

Definition sample2_tree : mod_ :=
  Module
    [FunctionDef 1 "multiply"
       (mk_arguments [mk_arg 1 "x" None; mk_arg 1 "y" None] [])
       [Assign 2 [Name 2 "z" Store]
          (BinOp 2 (Name 2 "x" Load) Mult (Name 2 "y" Load));
        Return 3 (Some (Name 3 "z" Load))]
       [] None].

Definition sample3_code : string :=
"
def broken_function(a)
    return a + 1
            ".

(** A parser that knows finitely many texts and rejects every other one the
    way [ast.parse] rejects the third sample. *)
Definition table_parse (table : list (string * mod_)) (text : string)
  : parse_outcome :=
  match dict_get table text with
  | Some t => Parsed t
  | None => RaisesSyntaxError "invalid syntax (<user_code>, line 1)" (Some 1)
  end.

Definition sample_parse : string -> parse_outcome :=
  table_parse [(strip sample1_code, sample1_tree);
               (strip sample2_code, sample2_tree)].

(** Names in the [builtins] module of a current CPython. *)
Definition cpython_builtins : gset string :=
  list_to_set
    ["ArithmeticError"; "AssertionError"; "AttributeError"; "BaseException";
     "BlockingIOError"; "BrokenPipeError"; "BufferError"; "BytesWarning";
     "ChildProcessError"; "ConnectionAbortedError"; "ConnectionError";
     "ConnectionRefusedError"; "ConnectionResetError"; "DeprecationWarning";
     "EOFError"; "Ellipsis"; "EncodingWarning"; "EnvironmentError";
     "Exception"; "False"; "FileExistsError"; "FileNotFoundError";
     "FloatingPointError"; "FutureWarning"; "GeneratorExit"; "IOError";
     "ImportError"; "ImportWarning"; "IndentationError"; "IndexError";
     "InterruptedError"; "IsADirectoryError"; "KeyError"; "KeyboardInterrupt";
     "LookupError"; "MemoryError"; "ModuleNotFoundError"; "NameError"; "None";
     "NotADirectoryError"; "NotImplemented"; "NotImplementedError"; "OSError";
     "OverflowError"; "PendingDeprecationWarning"; "PermissionError";
     "ProcessLookupError"; "RecursionError"; "ReferenceError";
     "ResourceWarning"; "RuntimeError"; "RuntimeWarning";
     "StopAsyncIteration"; "StopIteration"; "SyntaxError"; "SyntaxWarning";
     "SystemError"; "SystemExit"; "TabError"; "TimeoutError"; "True";
     "TypeError"; "UnboundLocalError"; "UnicodeDecodeError";
     "UnicodeEncodeError"; "UnicodeError"; "UnicodeTranslateError";
     "UnicodeWarning"; "UserWarning"; "ValueError"; "Warning";
     "ZeroDivisionError"; "__build_class__"; "__debug__"; "__doc__";
     "__import__"; "__loader__"; "__name__"; "__package__"; "__spec__";
     "abs"; "aiter"; "all"; "anext"; "any"; "ascii"; "bin"; "bool";
     "breakpoint"; "bytearray"; "bytes"; "callable"; "chr"; "classmethod";
     "compile"; "complex"; "copyright"; "credits"; "delattr"; "dict"; "dir";
     "divmod"; "enumerate"; "eval"; "exec"; "exit"; "filter"; "float";
     "format"; "frozenset"; "getattr"; "globals"; "hasattr"; "hash"; "help";
     "hex"; "id"; "input"; "int"; "isinstance"; "issubclass"; "iter"; "len";
     "license"; "list"; "locals"; "map"; "max"; "memoryview"; "min"; "next";
     "object"; "oct"; "open"; "ord"; "pow"; "print"; "property"; "quit";
     "range"; "repr"; "reversed"; "round"; "set"; "setattr"; "slice";
     "sorted"; "staticmethod"; "str"; "sum"; "super"; "tuple"; "type"; "vars";
     "zip"].

(** ** Notions used in the statements *)

(** The object right after [parse_code] succeeded on a fresh one. *)
Definition parsed (code_string : string) (t : mod_) : CodeDebugger :=
  {| code := strip code_string; tree := Some t;
     errors := []; optimizations := []; suggestions := [] |}.

(** An object with empty accumulators and no tree. *)
Definition blank : CodeDebugger :=
  {| code := EmptyString; tree := None;
     errors := []; optimizations := []; suggestions := [] |}.

(** [id] occurs in the tree as a [Name] in [Store] position. *)
Definition stored_in (t : mod_) (id : string) : Prop :=
  exists lineno, In (NExpr (Name lineno id Store)) (walk (NModule t)).

(** [id] occurs in the tree as a [Name] in [Load] position. *)
Definition loaded_in (t : mod_) (id : string) : Prop :=
  exists lineno, In (NExpr (Name lineno id Load)) (walk (NModule t)).

(** Some function definition of the tree is called [name]. *)
Definition function_in (t : mod_) (name : string) : Prop :=
  exists lineno args body decorator_list returns,
    In (NStmt (FunctionDef lineno name args body decorator_list returns))
       (walk (NModule t)).

(** Some function definition of the tree has a parameter called [id]. *)
Definition parameter_in (t : mod_) (id : string) : Prop :=
  exists lineno name args body decorator_list returns a,
    In (NStmt (FunctionDef lineno name args body decorator_list returns))
       (walk (NModule t))
    /\ In a (arguments_args args) /\ arg_arg a = id.

(** Some import statement of the tree binds [id]. *)
Definition imported_in (t : mod_) (id : string) : Prop :=
  (exists lineno names a,
      In (NStmt (Import lineno names)) (walk (NModule t)) /\ In a names
      /\ or_else (alias_asname a) (first_segment (alias_name a)) = id)
  \/ (exists lineno module names level a,
         In (NStmt (ImportFrom lineno module names level)) (walk (NModule t))
         /\ In a names /\ or_else (alias_asname a) (alias_name a) = id).

(** [isinstance(n, ast.Return) and n.value] *)
Definition is_valued_return (n : node) : bool :=
  match n with NStmt (Return _ (Some _)) => true | _ => false end.

(** The label the type-hint pass attaches to a returned expression. *)
Definition value_label (value : expr) : string :=
  match value with
  | Constant _ v => constant_label v "Any"
  | List _ _ _ => "list"
  | _ => "Any"
  end.

(** A returned expression that is a literal or a list display. *)
Definition is_literal_or_list (value : expr) : bool :=
  match value with Constant _ _ | List _ _ _ => true | _ => false end.

(** The return label as the specification words it: the label of the first
    [Return] met whose value is a literal or a list display, earlier returns
    of other values being skipped; ["Any"] when there is none. *)
Fixpoint spec_return_type (nodes : list node) : string :=
  match nodes with
  | [] => "Any"
  | NStmt (Return _ (Some value)) :: rest =>
      if is_literal_or_list value then value_label value
      else spec_return_type rest
  | _ :: rest => spec_return_type rest
  end.

(** What one node contributes to [defined_names] in the undefined-variable
    pass. *)
Definition defines (n : node) (x : string) : Prop :=
  match n with
  | NExpr (Name _ id Store) => id = x
  | NStmt (FunctionDef _ name args _ _ _) =>
      name = x \/ exists a, In a (arguments_args args) /\ arg_arg a = x
  | _ => False
  end.

(** What one node contributes to [imported_names]. *)
Definition binds_import (n : node) (x : string) : Prop :=
  match n with
  | NStmt (Import _ names) =>
      exists a, In a names
                /\ or_else (alias_asname a) (first_segment (alias_name a)) = x
  | NStmt (ImportFrom _ _ names _) =>
      exists a, In a names /\ or_else (alias_asname a) (alias_name a) = x
  | _ => False
  end.

(** What one node contributes to the keys of [defined_names] in the
    unused-variable pass. *)
Definition declares (n : node) (x : string) : Prop :=
  match n with
  | NExpr (Name _ id Store) => id = x
  | NStmt (FunctionDef _ _ args _ _ _) =>
      exists a, In a (arguments_args args) /\ arg_arg a = x
  | _ => False
  end.

(** What one node contributes to [used_names]. *)
Definition loads (n : node) (x : string) : Prop :=
  match n with NExpr (Name _ id Load) => id = x | _ => False end.

(** What one node contributes to [function_names]. *)
Definition names_function (n : node) (x : string) : Prop :=
  match n with NStmt (FunctionDef _ name _ _ _ _) => name = x | _ => False end.

(** The keys of a dictionary, in order. *)
Definition keys {V : Type} (d : list (string * V)) : list string := map fst d.

(** The text contains a single-quote character; no Python identifier does. *)
Fixpoint has_quote (s : string) : bool :=
  match s with
  | EmptyString => false
  | String c r => Ascii.eqb c "'"%char || has_quote r
  end.

(** The rendering of a reported pair. *)
Definition render (message : string -> Z -> string) (item : string * Z)
  : string :=
  message item.1 item.2.

(** ** Small programs used as test inputs *)

(** [print(x)] on line 1, [x = 1] on line 2. *)
Definition load_then_store_tree : mod_ :=
  Module
    [Expr 1 (Call 1 (Name 1 "print" Load) [Name 1 "x" Load] []);
     Assign 2 [Name 2 "x" Store] (Constant 2 (VInt 1))].

(** [x = x] *)
Definition self_assign_tree : mod_ :=
  Module [Assign 1 [Name 1 "x" Store] (Name 1 "x" Load)].

(** [x = x + 0] *)
Definition add_zero_tree : mod_ :=
  Module
    [Assign 1 [Name 1 "x" Store]
       (BinOp 1 (Name 1 "x" Load) Add (Constant 1 (VInt 0)))].

(** [x = y + 0] *)
Definition other_add_zero_tree : mod_ :=
  Module
    [Assign 1 [Name 1 "x" Store]
       (BinOp 1 (Name 1 "y" Load) Add (Constant 1 (VInt 0)))].

(** [for i in range(3):] / [if i:] / [append(i)] *)
Definition range_append_loop : stmt :=
  For 1 (Name 1 "i" Store)
    (Call 1 (Name 1 "range" Load) [Constant 1 (VInt 3)] [])
    [If 2 (Name 2 "i" Load)
       [Expr 3 (Call 3 (Name 3 "append" Load) [Name 3 "i" Load] [])] []]
    [].

Definition range_append_tree : mod_ := Module [range_append_loop].

(** [for i in items:] / [if i:] / [append(i)] *)
Definition items_append_loop : stmt :=
  For 1 (Name 1 "i" Store) (Name 1 "items" Load)
    [If 2 (Name 2 "i" Load)
       [Expr 3 (Call 3 (Name 3 "append" Load) [Name 3 "i" Load] [])] []]
    [].

Definition items_append_tree : mod_ := Module [items_append_loop].

(** [def f(x):] / [if x:] / [return 1] / [return x] *)
Definition name_return_first_def : stmt :=
  FunctionDef 1 "f" (mk_arguments [mk_arg 1 "x" None] [])
    [If 2 (Name 2 "x" Load) [Return 3 (Some (Constant 3 (VInt 1)))] [];
     Return 4 (Some (Name 4 "x" Load))]
    [] None.

(** [def f():] / [return True] *)
Definition bool_return_def : stmt :=
  FunctionDef 1 "f" (mk_arguments [] [])
    [Return 2 (Some (Constant 2 (VBool true)))] [] None.

Definition bool_return_tree : mod_ := Module [bool_return_def].

(** [r = 10 / n] *)
Definition divide_by_name_tree : mod_ :=
  Module
    [Assign 1 [Name 1 "r" Store]
       (BinOp 1 (Constant 1 (VInt 10)) Div (Name 1 "n" Load))].

(** [def f():] / [return] *)
Definition bare_return_def : stmt :=
  FunctionDef 1 "f" (mk_arguments [] []) [Return 2 None] [] None.

(** [import os.path] on line 1, [print(path)] on line 2. *)
Definition dotted_import_last_tree : mod_ :=
  Module
    [Import 1 [mk_alias "os.path" None];
     Expr 2 (Call 2 (Name 2 "print" Load) [Name 2 "path" Load] [])].

(** [import os.path] on line 1, [print(os)] on line 2. *)
Definition dotted_import_first_tree : mod_ :=
  Module
    [Import 1 [mk_alias "os.path" None];
     Expr 2 (Call 2 (Name 2 "print" Load) [Name 2 "os" Load] [])].

(** A loop body that only appends to the three accumulators, by amounts
    that do not depend on what they already hold. *)
Definition appends {A : Type} (step : CodeDebugger -> A -> CodeDebugger)
  : Prop :=
  forall self x,
    step self x =
    {| code := code self; tree := tree self;
       errors := errors self ++ errors (step blank x);
       optimizations := optimizations self ++ optimizations (step blank x);
       suggestions := suggestions self ++ suggestions (step blank x) |}.

(** ** Notions used for the whole analysis *)

(** Every character of the text is white space. *)
Fixpoint all_space (s : string) : bool :=
  match s with
  | EmptyString => true
  | String c r => isspace c && all_space r
  end.

(** The line one node records for [x] in the dictionary of the
    unused-variable pass: the line of a stored [Name], or the line of the last
    parameter called [x] of a function definition. *)
Definition declared_line (n : node) (x : string) : option Z :=
  match n with
  | NExpr (Name lineno id Store) => if decide (id = x) then Some lineno else None
  | NStmt (FunctionDef _ _ args _ _ _) =>
      fold_left (fun acc a =>
                   if decide (arg_arg a = x) then Some (arg_lineno a) else acc)
                (arguments_args args) None
  | _ => None
  end.




(** What the six passes, run in the order of [analyze], add to the three
    accumulators for a tree. *)
Definition tree_errors (builtins_keys : gset string) (t : mod_) : list string :=
  map (render undefined_message) (undefined_reports builtins_keys t)
  ++ map (render unused_message) (unused_reports t)
  ++ flat_map (fun n => errors (division_step blank n)) (walk (NModule t))
  ++ flat_map (fun n => errors (redundant_step blank n)) (walk (NModule t)).

Definition tree_optimizations (t : mod_) : list string :=
  flat_map (fun n => optimizations (loops_step blank n)) (walk (NModule t)).

Definition tree_suggestions (t : mod_) : list string :=
  flat_map (fun n => suggestions (division_step blank n)) (walk (NModule t))
  ++ flat_map (fun n => suggestions (type_hints_step blank n))
       (walk (NModule t)).

(** [l'] is [l] with entries added at the end. *)
Definition extends (l l' : list string) : Prop := exists added, l' = l ++ added.

(** The lines of the [Load] occurrences of [id], in the order of the walk. *)
Definition load_lines (t : mod_) (id : string) : list Z :=
  flat_map (fun n =>
              match n with
              | NExpr (Name lineno id' Load) =>
                  if decide (id' = id) then [lineno] else []
              | _ => []
              end) (walk (NModule t)).

(** [if c:] / [x = 1] / [x = 2], the last line back at top level. *)
Definition nested_store_tree : mod_ :=
  Module
    [If 1 (Name 1 "c" Load)
       [Assign 2 [Name 2 "x" Store] (Constant 2 (VInt 1))] [];
     Assign 3 [Name 3 "x" Store] (Constant 3 (VInt 2))].


(** ** The driver

    [print] is modelled by the list of the texts handed to it, one entry for
    each call. *)

(** [s * n] *)
Fixpoint repeat_string (s : string) (n : nat) : string :=
  match n with
  | O => EmptyString
  | S n' => s +:+ repeat_string s n'
  end.

(** The line-feed character written as an escape in the source. *)
Definition newline : string := String "010"%char EmptyString.

(** [f"  - {finding}"] *)
Definition bullet (finding : string) : string := "  - " +:+ finding.

(** One [if results[...]: ... else: ...] block of [debug_code]. *)
Definition print_findings (title none : string) (findings : list string)
  : list string :=
  match findings with
  | [] => [none]
  | _ :: _ => title :: map bullet findings
  end.

Definition debug_code (ast_parse : string -> parse_outcome)
    (builtins_keys : gset string) (code_string sample_name : string)
  : list string :=
  let results := fst (analyze ast_parse builtins_keys (init code_string)) in
  [newline +:+ repeat_string "=" 20 +:+ " Debugging sample: " +:+ sample_name
     +:+ " " +:+ repeat_string "=" 20;
   "Code:";
   strip code_string;
   repeat_string "-" 50]
  ++ print_findings "Errors found:" "No errors found." (res_errors results)
  ++ print_findings (newline +:+ "Optimization suggestions:")
       (newline +:+ "No optimization suggestions.")
       (res_optimizations results)
  ++ print_findings (newline +:+ "Code improvement suggestions:")
       (newline +:+ "No code improvement suggestions.")
       (res_suggestions results).

(** The [samples] list of [debug_multiple_samples], as (name, code) pairs. *)
Definition samples : list (string * string) :=
  [("Sample 1: Original Example", sample1_code);
   ("Sample 2: Simple Function", sample2_code);
   ("Sample 3: Syntax Error", sample3_code)].

Definition debug_multiple_samples (ast_parse : string -> parse_outcome)
    (builtins_keys : gset string) : list string :=
  flat_map (fun sample => debug_code ast_parse builtins_keys sample.2 sample.1)
           samples.


(** ** Facts about [walk] *)

Lemma list_sum_map_const1 {A : Type} (l : list A) :
  list_sum (map (fun _ => 1%nat) l) = length l.
Proof. induction l as [|x l IH]; simpl; [reflexivity | now rewrite IH]. Qed.

Lemma node_size_children (n : node) :
  node_size n = S (list_sum (map node_size (iter_child_nodes n))).
Proof.
  destruct n as [[body]|s|e|a|a|k|a|c|o|o|o]; simpl; try reflexivity;
    try destruct s; try destruct e; unfold arguments_size, arg_size, opt_expr;
    simpl;
    repeat (rewrite ?map_app, ?list_sum_app, ?map_map; simpl);
    rewrite ?list_sum_map_const1;
    change (fun x : stmt => stmt_size x) with stmt_size;
    change (fun x : expr => expr_size x) with expr_size;
    change (fun x : arg => arg_size x) with arg_size;
    repeat match goal with
           | |- context [opt_expr_size ?o] => destruct o; simpl
           | |- context [match ?o with Some _ => _ | None => _ end] =>
               destruct o; simpl
           end;
    try lia; rewrite <- ?Nat.add_assoc; reflexivity.
Qed.

Lemma walk_queue_spec (fuel : nat) :
  forall (todo : list node) (d : node),
    (list_sum (map node_size todo) <= fuel)%nat ->
    In d (walk_queue fuel todo) <->
    exists n, In n todo /\ descendant n d.
Proof.
  induction fuel as [|fuel IH]; intros todo d Hfuel.
  - destruct todo as [|n rest].
    + simpl. split; [tauto | intros (n & [] & _)].
    + simpl in Hfuel. rewrite (node_size_children n) in Hfuel. lia.
  - destruct todo as [|n rest]; simpl.
    + split; [tauto | intros (n & [] & _)].
    + rewrite IH.
      * split.
        -- intros [<- | (m & Hm & Hd)].
           ++ exists n. split; [now left | constructor].
           ++ apply in_app_or in Hm. destruct Hm as [Hm | Hm].
              ** exists m. split; [now right | exact Hd].
              ** exists n. split; [now left |].
                 eapply descendant_child; eassumption.
        -- intros (m & [<- | Hm] & Hd).
           ++ inversion Hd; subst.
              ** now left.
              ** right. eexists. split; [|eassumption].
                 apply in_or_app. now right.
           ++ right. exists m. split; [|exact Hd].
              apply in_or_app. now left.
      * simpl in Hfuel. rewrite (node_size_children n) in Hfuel.
        rewrite map_app, list_sum_app. lia.
Qed.

(** [ast.walk] yields exactly the node and everything below it. *)
Lemma walk_spec (n d : node) : In d (walk n) <-> descendant n d.
Proof.
  unfold walk. rewrite walk_queue_spec by (simpl; lia).
  split.
  - intros (m & [<- | []] & Hd). exact Hd.
  - intros Hd. exists n. split; [now left | exact Hd].
Qed.

Lemma descendant_trans (a b c : node) :
  descendant a b -> descendant b c -> descendant a c.
Proof.
  induction 1 as [|n ch d Hin Hd IH]; intros Hbc; [exact Hbc |].
  eapply descendant_child; [exact Hin | exact (IH Hbc)].
Qed.

Lemma walk_root (n : node) : In n (walk n).
Proof. apply walk_spec. constructor. Qed.

Lemma walk_child (n c : node) : In c (iter_child_nodes n) -> In c (walk n).
Proof.
  intros H. apply walk_spec. eapply descendant_child; [exact H | constructor].
Qed.

Lemma walk_trans (a b c : node) : In b (walk a) -> In c (walk b) -> In c (walk a).
Proof. rewrite !walk_spec. apply descendant_trans. Qed.

(** ** Loops that only append *)

Lemma CodeDebugger_eta (self : CodeDebugger) :
  self = {| code := code self; tree := tree self; errors := errors self;
            optimizations := optimizations self;
            suggestions := suggestions self |}.
Proof. now destruct self. Qed.

Lemma fold_left_appends {A : Type} (step : CodeDebugger -> A -> CodeDebugger) :
  appends step ->
  forall (l : list A) (self : CodeDebugger),
    fold_left step l self =
    {| code := code self; tree := tree self;
       errors := errors self ++ flat_map (fun x => errors (step blank x)) l;
       optimizations :=
         optimizations self ++ flat_map (fun x => optimizations (step blank x)) l;
       suggestions :=
         suggestions self ++ flat_map (fun x => suggestions (step blank x)) l |}.
Proof.
  intros Happ l. induction l as [|x l IH]; intros self; simpl.
  - rewrite !app_nil_r. apply CodeDebugger_eta.
  - rewrite IH, (Happ self x). simpl. now rewrite <- !app_assoc.
Qed.

Ltac appends_by_cases :=
  intros self x; destruct self; unfold blank; simpl;
  repeat (match goal with
          | |- context [match ?v with _ => _ end] => destruct v
          end; simpl);
  rewrite ?app_nil_r; reflexivity.

Lemma undefined_step_appends (builtins_keys defined_names imported_names : gset string) :
  appends (undefined_step builtins_keys defined_names imported_names).
Proof. unfold undefined_step. appends_by_cases. Qed.

Lemma unused_step_appends (used_names function_names : gset string) :
  appends (unused_step used_names function_names).
Proof. unfold unused_step. appends_by_cases. Qed.

Lemma division_step_appends : appends division_step.
Proof. unfold division_step. appends_by_cases. Qed.

Lemma redundant_step_appends : appends redundant_step.
Proof. unfold redundant_step. appends_by_cases. Qed.

Lemma loops_step_appends : appends loops_step.
Proof.
  intros self x. destruct self. unfold blank, loops_step.
  destruct x as [| [] | | | | | | | | |]; simpl; rewrite ?app_nil_r;
    try reflexivity.
  destruct (is_call_to "range" iter).
  - destruct (forallb is_aug_add body); simpl; rewrite ?app_nil_r; reflexivity.
  - match goal with |- context [existsb ?f ?l] => destruct (existsb f l) end;
      simpl; rewrite ?app_nil_r; reflexivity.
Qed.

Lemma param_hint_step_appends (name : string) (param_types : list (string * string)) :
  appends (param_hint_step name param_types).
Proof. unfold param_hint_step. appends_by_cases. Qed.

Lemma type_hints_step_appends : appends type_hints_step.
Proof.
  intros self x. unfold type_hints_step.
  destruct x as [| [] | | | | | | | | |];
    try (simpl; rewrite ?app_nil_r; apply CodeDebugger_eta).
  rewrite !(fold_left_appends _ (param_hint_step_appends _ _)).
  destruct returns; simpl; rewrite ?app_nil_r, <- ?app_assoc; reflexivity.
Qed.

(** What a pass leaves in the three accumulators. *)
Lemma for_each_node_appends (step : CodeDebugger -> node -> CodeDebugger) :
  appends step ->
  forall (self : CodeDebugger) (t : mod_),
    tree self = Some t ->
    for_each_node step self =
    {| code := code self; tree := tree self;
       errors :=
         errors self
         ++ flat_map (fun n => errors (step blank n)) (walk (NModule t));
       optimizations :=
         optimizations self
         ++ flat_map (fun n => optimizations (step blank n)) (walk (NModule t));
       suggestions :=
         suggestions self
         ++ flat_map (fun n => suggestions (step blank n)) (walk (NModule t)) |}.
Proof.
  intros Happ self t Ht. unfold for_each_node. rewrite Ht.
  rewrite (fold_left_appends step Happ), Ht. reflexivity.
Qed.

(** ** The sample programs of the driver *)

Example sample1_results :
  fst (analyze sample_parse cpython_builtins (init sample1_code)) =
  {| res_errors :=
       ["Undefined variable 'x' used at line 4. Fix: Define 'x' before use.";
        "Unused variable 'unused_var' defined at line 2.";
        "Unused variable 'risky' defined at line 8.";
        "Division by zero at line 8. Fix: Avoid dividing by zero.";
        "Redundant assignment 'result = result' at line 7. Fix: Remove this line."];
     res_optimizations :=
       ["Line 5: Replace loop with sum(range(...)) for efficiency."];
     res_suggestions :=
       ["Line 1: Add type hint for return value of 'calculate_sum' (e.g., -> Any).";
        "Line 1: Add type hint for parameter 'a' in 'calculate_sum' (e.g., a: int).";
        "Line 1: Add type hint for parameter 'b' in 'calculate_sum' (e.g., b: int)."] |}.
Proof. vm_compute. reflexivity. Qed.

Example sample2_results :
  fst (analyze sample_parse cpython_builtins (init sample2_code)) =
  {| res_errors := [];
     res_optimizations := [];
     res_suggestions :=
       ["Line 1: Add type hint for return value of 'multiply' (e.g., -> Any).";
        "Line 1: Add type hint for parameter 'x' in 'multiply' (e.g., x: int).";
        "Line 1: Add type hint for parameter 'y' in 'multiply' (e.g., y: int)."] |}.
Proof. vm_compute. reflexivity. Qed.

(** ** The coordinator *)

Section Coordinator.

Variable ast_parse : string -> parse_outcome.
Variable builtins_keys : gset string.

(** C1: when [ast.parse] raises on the stripped text, [analyze] on a fresh
    object returns exactly one entry in [errors], the message built from the
    exception, and empty [optimizations] and [suggestions]; the object is left
    as [parse_code] left it, with no tree and no finding of any pass. *)
Theorem analyze_parse_failure (code_string : string) :
  (forall t, ast_parse (strip code_string) <> Parsed t) ->
  exists e,
    fst (analyze ast_parse builtins_keys (init code_string)) =
      {| res_errors := [e]; res_optimizations := []; res_suggestions := [] |}
    /\ ((exists msg lineno,
            ast_parse (strip code_string) = RaisesSyntaxError msg lineno
            /\ e = "SyntaxError: " +:+ msg +:+ " at line "
                     +:+ str_of_lineno lineno)
        \/ (exists msg,
               ast_parse (strip code_string) = RaisesException msg
               /\ e = "Unexpected error during parsing: " +:+ msg))
    /\ snd (analyze ast_parse builtins_keys (init code_string)) =
         {| code := strip code_string; tree := None; errors := [e];
            optimizations := []; suggestions := [] |}.
Proof.
  intros Hfail. unfold analyze, parse_code. simpl.
  destruct (ast_parse (strip code_string)) as [t | msg lineno | msg] eqn:Hp.
  - now destruct (Hfail t).
  - eexists. split; [reflexivity |]. split; [|reflexivity].
    left. now exists msg, lineno.
  - eexists. split; [reflexivity |]. split; [|reflexivity].
    right. now exists msg.
Qed.


(** The result depends on the text only through its stripped form. *)
Lemma analyze_strip (code1 code2 : string) :
  strip code1 = strip code2 ->
  analyze ast_parse builtins_keys (init code1) =
  analyze ast_parse builtins_keys (init code2).
Proof. unfold init. now intros ->. Qed.

End Coordinator.

Lemma analyze_parse_failure_witness :
  (forall t, sample_parse (strip sample3_code) <> Parsed t)
  /\ exists e,
      fst (analyze sample_parse cpython_builtins (init sample3_code)) =
        {| res_errors := [e]; res_optimizations := []; res_suggestions := [] |}
      /\ ((exists msg lineno,
              sample_parse (strip sample3_code) = RaisesSyntaxError msg lineno
              /\ e = "SyntaxError: " +:+ msg +:+ " at line "
                       +:+ str_of_lineno lineno)
          \/ (exists msg,
                 sample_parse (strip sample3_code) = RaisesException msg
                 /\ e = "Unexpected error during parsing: " +:+ msg))
      /\ snd (analyze sample_parse cpython_builtins (init sample3_code)) =
           {| code := strip sample3_code; tree := None; errors := [e];
              optimizations := []; suggestions := [] |}.
Proof.
  assert (H : forall t, sample_parse (strip sample3_code) <> Parsed t)
    by (intros t; vm_compute; discriminate).
  split; [exact H |].
  exact (analyze_parse_failure sample_parse cpython_builtins sample3_code H).
Defined.


(** Freshness matters: a second [analyze] on the same object starts from the
    accumulators the first one filled. *)
Example analyze_twice_same_object :
  res_errors
    (fst (analyze sample_parse cpython_builtins
            (snd (analyze sample_parse cpython_builtins (init sample3_code))))) =
  ["SyntaxError: invalid syntax (<user_code>, line 1) at line 1";
   "SyntaxError: invalid syntax (<user_code>, line 1) at line 1"].
Proof. vm_compute. reflexivity. Qed.

(** ** Findings of a pass, node by node *)

Section PassFindings.

Variable step : CodeDebugger -> node -> CodeDebugger.
Hypothesis step_appends : appends step.
Variables (self : CodeDebugger) (t : mod_).
Hypothesis tree_self : tree self = Some t.

Lemma pass_errors_intro (n : node) (e : string) :
  In n (walk (NModule t)) -> In e (errors (step blank n)) ->
  In e (errors (for_each_node step self)).
Proof.
  intros Hn He. rewrite (for_each_node_appends step step_appends self t tree_self).
  simpl. apply in_or_app. right. apply in_flat_map. eauto.
Qed.

Lemma pass_optimizations_intro (n : node) (e : string) :
  In n (walk (NModule t)) -> In e (optimizations (step blank n)) ->
  In e (optimizations (for_each_node step self)).
Proof.
  intros Hn He. rewrite (for_each_node_appends step step_appends self t tree_self).
  simpl. apply in_or_app. right. apply in_flat_map. eauto.
Qed.

Lemma pass_suggestions_intro (n : node) (e : string) :
  In n (walk (NModule t)) -> In e (suggestions (step blank n)) ->
  In e (suggestions (for_each_node step self)).
Proof.
  intros Hn He. rewrite (for_each_node_appends step step_appends self t tree_self).
  simpl. apply in_or_app. right. apply in_flat_map. eauto.
Qed.

End PassFindings.

(** ** Division by zero *)

Lemma division_step_errors (n : node) (e : string) :
  In e (errors (division_step blank n)) -> exists lineno, e = division_error lineno.
Proof.
  unfold division_step.
  repeat (match goal with
          | |- context [match ?v with _ => _ end] => destruct v
          end; simpl); try tauto.
  intros [<- | []]. eauto.
Qed.

Lemma division_suggestion_not_error (lineno lineno' : Z) (id : string) :
  division_suggestion lineno id <> division_error lineno'.
Proof. unfold division_suggestion, division_error. simpl. discriminate. Qed.

(** C4: for a binary operation of the tree whose operator is [/], [//] or [%]:
    when the right operand is a literal equal to zero, the pass puts the
    division-by-zero message for the operation's line in [errors]; when the
    right operand is a name, the pass puts the zero-check suggestion naming it
    in [suggestions], the loop body leaves [errors] as it was, and nothing the
    pass adds to [errors] is that suggestion. *)
Theorem division_pass_reports (self : CodeDebugger) (t : mod_) (lineno : Z)
    (lhs rhs : expr) (op : operator) :
  tree self = Some t ->
  In (NExpr (BinOp lineno lhs op rhs)) (walk (NModule t)) ->
  op = Div \/ op = FloorDiv \/ op = Mod ->
  (forall cl v, rhs = Constant cl v -> constant_eq_zero v = true ->
     In (division_error lineno) (errors (check_division_by_zero self)))
  /\ (forall nl id c, rhs = Name nl id c ->
        In (division_suggestion lineno id)
           (suggestions (check_division_by_zero self))
        /\ (forall s, errors (division_step s (NExpr (BinOp lineno lhs op rhs)))
                      = errors s)
        /\ exists added,
            errors (check_division_by_zero self) = errors self ++ added
            /\ ~ In (division_suggestion lineno id) added).
Proof.
  intros Ht Hn Hop.
  assert (Hdiv : is_division op = true) by (destruct Hop as [-> | [-> | ->]]; reflexivity).
  split.
  - intros cl v -> Hz.
    eapply (pass_errors_intro _ division_step_appends _ _ Ht _ _ Hn).
    simpl. rewrite Hdiv, Hz. now left.
  - intros nl id c ->. split; [|split].
    + eapply (pass_suggestions_intro _ division_step_appends _ _ Ht _ _ Hn).
      simpl. rewrite Hdiv. now left.
    + intros s. simpl. now rewrite Hdiv.
    + unfold check_division_by_zero.
      rewrite (for_each_node_appends _ division_step_appends self t Ht). simpl.
      eexists. split; [reflexivity |].
      intros Hin. apply in_flat_map in Hin. destruct Hin as (n & _ & Hin).
      apply division_step_errors in Hin. destruct Hin as (l & Hl).
      now apply division_suggestion_not_error in Hl.
Qed.

Ltac in_walk := vm_compute; repeat (first [left; reflexivity | right]).

Lemma division_pass_reports_witness :
  In (division_error 8)
     (errors (check_division_by_zero (parsed sample1_code sample1_tree)))
  /\ In (division_suggestion 1 "n")
        (suggestions
           (check_division_by_zero (parsed "r = 10 / n" divide_by_name_tree)))
  /\ errors (check_division_by_zero (parsed "r = 10 / n" divide_by_name_tree))
     = [].
Proof.
  split; [|split].
  - refine (proj1 (division_pass_reports (parsed sample1_code sample1_tree)
                     sample1_tree 8 (Constant 8 (VInt 10)) (Constant 8 (VInt 0))
                     Div eq_refl _ (or_introl eq_refl)) 8 (VInt 0) eq_refl eq_refl).
    in_walk.
  - refine (proj1 (proj2 (division_pass_reports
                            (parsed "r = 10 / n" divide_by_name_tree)
                            divide_by_name_tree 1 (Constant 1 (VInt 10))
                            (Name 1 "n" Load) Div eq_refl _ (or_introl eq_refl))
                     1 "n" Load eq_refl)).
    in_walk.
  - vm_compute. reflexivity.
Defined.

(** ** Redundant code *)

Lemma redundant_self_assignment (self : CodeDebugger) (t : mod_)
    (lineno tl vl : Z) (x : string) (tc vc : expr_context) :
  tree self = Some t ->
  In (NStmt (Assign lineno [Name tl x tc] (Name vl x vc))) (walk (NModule t)) ->
  In (redundant_assignment_message x lineno)
     (errors (check_redundant_code self)).
Proof.
  intros Ht Hn.
  eapply (pass_errors_intro _ redundant_step_appends _ _ Ht _ _ Hn).
  simpl. rewrite bool_decide_eq_true_2 by reflexivity. now left.
Qed.

(** The addition branch never looks at the left operand. *)
Lemma redundant_add_zero (self : CodeDebugger) (t : mod_)
    (lineno tl bl cl : Z) (x : string) (tc : expr_context) (lhs : expr)
    (v : constant) :
  tree self = Some t ->
  In (NStmt (Assign lineno [Name tl x tc] (BinOp bl lhs Add (Constant cl v))))
     (walk (NModule t)) ->
  constant_eq_zero v = true ->
  In (redundant_operation_message x lineno)
     (errors (check_redundant_code self)).
Proof.
  intros Ht Hn Hz.
  eapply (pass_errors_intro _ redundant_step_appends _ _ Ht _ _ Hn).
  simpl. rewrite Hz. now left.
Qed.

Example redundant_self_assign_once :
  errors (check_redundant_code (parsed "x = x" self_assign_tree)) =
  ["Redundant assignment 'x = x' at line 1. Fix: Remove this line."].
Proof. vm_compute. reflexivity. Qed.

Example redundant_add_zero_once :
  errors (check_redundant_code (parsed "x = x + 0" add_zero_tree)) =
  ["Redundant operation 'x = x + 0' at line 1. Fix: Remove this line."].
Proof. vm_compute. reflexivity. Qed.

(** C3: on [x = y + 0] the redundant-operation pass does report an error, and
    the message names an operation [x = x + 0] that is not in the program. *)
Theorem redundant_pass_flags_other_operand :
  errors (check_redundant_code (parsed "x = y + 0" other_add_zero_tree)) =
  ["Redundant operation 'x = x + 0' at line 1. Fix: Remove this line."].
Proof. vm_compute. reflexivity. Qed.

(** ** Inefficient loops *)

Lemma is_append_call_intro (cl nl : Z) (nc : expr_context) (args : list expr)
    (keywords : list (option string * expr)) :
  is_append_call (NExpr (Call cl (Name nl "append" nc) args keywords)) = true.
Proof. reflexivity. Qed.

(** C5, as stated, fails: a [range] loop whose body is not a pure summation
    and which holds an [append] call inside a conditional gets no suggestion
    at all. *)
Lemma loops_range_append_counterexample :
  In (NStmt range_append_loop) (walk (NModule range_append_tree))
  /\ (exists target iter body orelse,
         range_append_loop = For 1 target iter body orelse
         /\ is_call_to "range" iter = true
         /\ forallb is_aug_add body = false)
  /\ descendant (NStmt range_append_loop)
       (NExpr (Call 3 (Name 3 "append" Load) [Name 3 "i" Load] []))
  /\ ~ In (comprehension_message 1)
          (optimizations
             (check_inefficient_loops
                (parsed "for i in range(3):" range_append_tree))).
Proof.
  split; [in_walk |]. split.
  - do 4 eexists. split; [reflexivity |]. split; reflexivity.
  - split.
    + apply walk_spec. in_walk.
    + vm_compute. tauto.
Qed.

(** C5, amended: the comprehension suggestion belongs to the loops whose
    iterable is not a call to the bare name [range].  Such a loop gets it as
    soon as a call to the bare name [append] lies anywhere inside it; a
    [range] loop whose body is not a pure summation gets nothing. *)
Theorem loops_pass_comprehension (self : CodeDebugger) (t : mod_)
    (lineno : Z) (target iter : expr) (body orelse : list stmt) :
  tree self = Some t ->
  In (NStmt (For lineno target iter body orelse)) (walk (NModule t)) ->
  (is_call_to "range" iter = false ->
   (exists cl nl nc args keywords,
       descendant (NStmt (For lineno target iter body orelse))
         (NExpr (Call cl (Name nl "append" nc) args keywords))) ->
   In (comprehension_message lineno)
      (optimizations (check_inefficient_loops self)))
  /\ (is_call_to "range" iter = true ->
      forallb is_aug_add body = false ->
      forall s, loops_step s (NStmt (For lineno target iter body orelse)) = s).
Proof.
  intros Ht Hn. split.
  - intros Hrange (cl & nl & nc & args & keywords & Hd).
    eapply (pass_optimizations_intro _ loops_step_appends _ _ Ht _ _ Hn).
    unfold loops_step. rewrite Hrange.
    assert (Hex : existsb is_append_call
                    (walk (NStmt (For lineno target iter body orelse))) = true).
    { apply existsb_exists. eexists. split; [apply walk_spec; exact Hd |].
      apply is_append_call_intro. }
    rewrite Hex. simpl. now left.
  - intros Hrange Hsum s. unfold loops_step. now rewrite Hrange, Hsum.
Qed.

Lemma loops_pass_comprehension_witness :
  In (comprehension_message 1)
     (optimizations
        (check_inefficient_loops (parsed "for i in items:" items_append_tree)))
  /\ forall s, loops_step s (NStmt range_append_loop) = s.
Proof.
  split.
  - refine (proj1 (loops_pass_comprehension
                     (parsed "for i in items:" items_append_tree)
                     items_append_tree 1 (Name 1 "i" Store) (Name 1 "items" Load)
                     [If 2 (Name 2 "i" Load)
                        [Expr 3 (Call 3 (Name 3 "append" Load) [Name 3 "i" Load] [])]
                        []]
                     [] eq_refl _) eq_refl _).
    + in_walk.
    + exists 3, 3, Load, [Name 3 "i" Load], []. apply walk_spec. in_walk.
  - refine (proj2 (loops_pass_comprehension
                     (parsed "for i in range(3):" range_append_tree)
                     range_append_tree 1 (Name 1 "i" Store)
                     (Call 1 (Name 1 "range" Load) [Constant 1 (VInt 3)] [])
                     [If 2 (Name 2 "i" Load)
                        [Expr 3 (Call 3 (Name 3 "append" Load) [Name 3 "i" Load] [])]
                        []]
                     [] eq_refl _) eq_refl eq_refl).
    in_walk.
Defined.

(** ** Type hints *)

Lemma infer_return_type_skip (pre rest : list node) (return_type : string) :
  (forall n, In n pre -> is_valued_return n = false) ->
  infer_return_type (pre ++ rest) return_type =
  infer_return_type rest return_type.
Proof.
  induction pre as [|n pre IH]; intros Hpre; [reflexivity |].
  assert (Hn : is_valued_return n = false) by (apply Hpre; now left).
  assert (IH' := IH (fun m Hm => Hpre m (or_intror Hm))).
  destruct n as [| [] | | | | | | | | |]; simpl; try exact IH'.
  destruct value; [discriminate Hn | exact IH'].
Qed.

Lemma infer_return_type_first (pre post : list node) (lineno : Z) (value : expr) :
  (forall n, In n pre -> is_valued_return n = false) ->
  infer_return_type (pre ++ NStmt (Return lineno (Some value)) :: post) "Any" =
  value_label value.
Proof.
  intros Hpre. rewrite infer_return_type_skip by exact Hpre.
  destruct value; reflexivity.
Qed.

Lemma infer_return_type_none (nodes : list node) (return_type : string) :
  (forall n, In n nodes -> is_valued_return n = false) ->
  infer_return_type nodes return_type = return_type.
Proof.
  intros H. rewrite <- (app_nil_r nodes).
  now rewrite infer_return_type_skip.
Qed.

(** The suggestions of one function definition without a return annotation
    start with the return hint carrying the inferred label. *)
Lemma type_hints_step_return_hint (lineno : Z) (name : string) (args : arguments)
    (body : list stmt) (decorator_list : list expr) :
  let f := NStmt (FunctionDef lineno name args body decorator_list None) in
  In (return_hint lineno name (infer_return_type (walk f) "Any"))
     (suggestions (type_hints_step blank f)).
Proof.
  intros f. unfold f, type_hints_step.
  rewrite (fold_left_appends _ (param_hint_step_appends _ _)). simpl.
  now left.
Qed.

(** C6, as stated, fails: in [name_return_first_def] a [Return] of a literal
    exists, so the claim's label is ["int"], yet the first [Return] the walk
    meets returns a name and the loop stops there with ["Any"]. *)
Lemma return_type_skips_counterexample :
  In (NStmt (Return 3 (Some (Constant 3 (VInt 1)))))
     (walk (NStmt name_return_first_def))
  /\ spec_return_type (walk (NStmt name_return_first_def)) = "int"
  /\ infer_return_type (walk (NStmt name_return_first_def)) "Any" = "Any"
  /\ infer_return_type (walk (NStmt name_return_first_def)) "Any"
     <> spec_return_type (walk (NStmt name_return_first_def)).
Proof.
  split; [in_walk |]. split; [vm_compute; reflexivity |].
  split; [vm_compute; reflexivity |]. vm_compute. discriminate.
Qed.

(** C6, amended: the inferred label is decided by the first [Return] with a
    value that the breadth-first walk of the function meets, whatever that
    value is: the scalar label or ["list"] when it is a literal or a list
    display, ["Any"] otherwise; and ["Any"] when no [Return] has a value. *)
Theorem return_type_first_valued_return (f : stmt) :
  (forall pre lineno value post,
      walk (NStmt f) = pre ++ NStmt (Return lineno (Some value)) :: post ->
      (forall n, In n pre -> is_valued_return n = false) ->
      infer_return_type (walk (NStmt f)) "Any" = value_label value)
  /\ ((forall n, In n (walk (NStmt f)) -> is_valued_return n = false) ->
      infer_return_type (walk (NStmt f)) "Any" = "Any").
Proof.
  split.
  - intros pre lineno value post -> Hpre. now apply infer_return_type_first.
  - apply infer_return_type_none.
Qed.

Ltac no_valued_return :=
  intros n Hn; vm_compute in Hn;
  repeat (destruct Hn as [<- | Hn]; [reflexivity |]); destruct Hn.

Lemma return_type_first_valued_return_witness :
  infer_return_type (walk (NStmt name_return_first_def)) "Any" =
  value_label (Name 4 "x" Load)
  /\ infer_return_type (walk (NStmt bare_return_def)) "Any" = "Any".
Proof.
  split.
  - refine (proj1 (return_type_first_valued_return name_return_first_def)
              [NStmt name_return_first_def;
               NArguments (mk_arguments [mk_arg 1 "x" None] []);
               NStmt (If 2 (Name 2 "x" Load)
                        [Return 3 (Some (Constant 3 (VInt 1)))] [])]
              4 (Name 4 "x" Load) _ _ _).
    + vm_compute. reflexivity.
    + no_valued_return.
  - refine (proj2 (return_type_first_valued_return bare_return_def) _).
    no_valued_return.
Defined.

(** C10: when the first [Return] with a value that the walk of a function
    meets returns [True] or [False], the inferred label is ["int"], and a
    function of the tree without a return annotation gets the return hint
    with that label. *)
Theorem bool_return_label_int (self : CodeDebugger) (t : mod_) (lineno : Z)
    (name : string) (args : arguments) (body : list stmt)
    (decorator_list : list expr) (returns : option expr)
    (pre post : list node) (rl cl : Z) (b : bool) :
  let f := NStmt (FunctionDef lineno name args body decorator_list returns) in
  tree self = Some t ->
  In f (walk (NModule t)) ->
  walk f = pre ++ NStmt (Return rl (Some (Constant cl (VBool b)))) :: post ->
  (forall n, In n pre -> is_valued_return n = false) ->
  infer_return_type (walk f) "Any" = "int"
  /\ (returns = None ->
      In (return_hint lineno name "int") (suggestions (suggest_type_hints self))).
Proof.
  intros f Ht Hf Hwalk Hpre.
  assert (Hint : infer_return_type (walk f) "Any" = "int").
  { rewrite Hwalk. now rewrite infer_return_type_first. }
  split; [exact Hint |].
  intros ->.
  eapply (pass_suggestions_intro _ type_hints_step_appends _ _ Ht _ _ Hf).
  rewrite <- Hint. apply type_hints_step_return_hint.
Qed.

Lemma bool_return_label_int_witness :
  infer_return_type (walk (NStmt bool_return_def)) "Any" = "int"
  /\ In (return_hint 1 "f" "int")
        (suggestions (suggest_type_hints (parsed "def f():" bool_return_tree))).
Proof.
  assert (H := bool_return_label_int (parsed "def f():" bool_return_tree)
                 bool_return_tree 1 "f" (mk_arguments [] [])
                 [Return 2 (Some (Constant 2 (VBool true)))] [] None
                 [NStmt bool_return_def; NArguments (mk_arguments [] [])]
                 [NExpr (Constant 2 (VBool true))] 2 2 true eq_refl).
  destruct H as [H1 H2].
  - in_walk.
  - vm_compute. reflexivity.
  - no_valued_return.
  - split; [exact H1 | exact (H2 eq_refl)].
Defined.

(** ** The name sets of the undefined-variable pass *)

Lemma fold_add_spec {A : Type} (f : A -> string) (l : list A) :
  forall (s0 : gset string) (x : string),
    x ∈ fold_left (fun s a => {[f a]} ∪ s) l s0 <->
    x ∈ s0 \/ exists a, In a l /\ f a = x.
Proof.
  induction l as [|a l IH]; intros s0 x; simpl.
  - split; [now left | intros [H | (a & [] & _)]; exact H].
  - rewrite IH. split.
    + intros [H | (b & Hb & Hx)].
      * apply elem_of_union in H. destruct H as [H | H].
        -- apply elem_of_singleton in H. right. exists a. split; [now left | now symmetry].
        -- now left.
      * right. exists b. split; [now right | exact Hx].
    + intros [H | (b & [<- | Hb] & Hx)].
      * left. apply elem_of_union. now right.
      * left. apply elem_of_union. left. apply elem_of_singleton. now symmetry.
      * right. now exists b.
Qed.

Lemma collect_names_step (acc : gset string * gset string) (n : node) (x : string) :
  (x ∈ (collect_names acc n).1 <-> x ∈ acc.1 \/ defines n x)
  /\ (x ∈ (collect_names acc n).2 <-> x ∈ acc.2 \/ binds_import n x).
Proof.
  destruct acc as [d i]. unfold collect_names, defines, binds_import.
  destruct n as [| s | e | | | | | | | |]; simpl; try tauto.
  - destruct s; simpl; try tauto.
    + rewrite fold_add_spec. rewrite elem_of_union, elem_of_singleton.
      split; [|tauto]. split; intros H.
      * destruct H as [[H | H] | H]; [right; left; now symmetry | tauto | tauto].
      * destruct H as [H | [H | H]]; [tauto | left; left; now symmetry | tauto].
    + rewrite fold_add_spec. tauto.
    + rewrite fold_add_spec. tauto.
  - destruct e; simpl; try tauto.
    destruct ctx; simpl; try tauto.
    rewrite elem_of_union, elem_of_singleton. split; [|tauto].
    split; intros [H | H]; try tauto; [right | left]; now symmetry.
Qed.

Lemma collect_names_fold (l : list node) :
  forall (acc : gset string * gset string) (x : string),
    (x ∈ (fold_left collect_names l acc).1 <->
     x ∈ acc.1 \/ exists n, In n l /\ defines n x)
    /\ (x ∈ (fold_left collect_names l acc).2 <->
        x ∈ acc.2 \/ exists n, In n l /\ binds_import n x).
Proof.
  induction l as [|n l IH]; intros acc x; simpl.
  - split; (split; [now left | intros [H | (n & [] & _)]; exact H]).
  - destruct (IH (collect_names acc n) x) as [IH1 IH2].
    destruct (collect_names_step acc n x) as [S1 S2].
    rewrite IH1, IH2, S1, S2. split; split.
    + intros [[H | H] | (m & Hm & H)]; [now left | right; exists n; split; [now left | exact H] |right; exists m; split; [now right | exact H]].
    + intros [H | (m & [<- | Hm] & H)]; [tauto | tauto | right; now exists m].
    + intros [[H | H] | (m & Hm & H)]; [now left | right; exists n; split; [now left | exact H] |right; exists m; split; [now right | exact H]].
    + intros [H | (m & [<- | Hm] & H)]; [tauto | tauto | right; now exists m].
Qed.

(** [defined_names] holds exactly the stored names, the function names and
    the parameter names of the whole tree. *)
Lemma defined_names_spec (t : mod_) (x : string) :
  x ∈ (name_sets t).1 <-> stored_in t x \/ function_in t x \/ parameter_in t x.
Proof.
  unfold name_sets.
  destruct (collect_names_fold (walk (NModule t)) (∅, ∅) x) as [-> _]. simpl.
  split.
  - intros [H | (n & Hn & Hd)]; [now apply not_elem_of_empty in H |].
    destruct n as [| s | e | | | | | | | |]; simpl in Hd; try contradiction.
    + destruct s; try contradiction.
      destruct Hd as [<- | (a & Ha & <-)].
      * right. left. red. eauto 10.
      * right. right. red. eauto 12.
    + destruct e; try contradiction. destruct ctx; try contradiction.
      subst. left. red. eauto.
  - intros [(l & H) | [(l & args & body & decs & returns & H)
                      | (l & name & args & body & decs & returns & a & H & Ha & Hx)]];
      right; eexists; (split; [exact H |]); simpl; eauto.
Qed.

(** [imported_names] holds exactly the names the import statements bind. *)
Lemma imported_names_spec (t : mod_) (x : string) :
  x ∈ (name_sets t).2 <-> imported_in t x.
Proof.
  unfold name_sets.
  destruct (collect_names_fold (walk (NModule t)) (∅, ∅) x) as [_ ->]. simpl.
  split.
  - intros [H | (n & Hn & Hd)]; [now apply not_elem_of_empty in H |].
    destruct n as [| s | | | | | | | | |]; simpl in Hd; try contradiction.
    destruct s; try contradiction; destruct Hd as (a & Ha & Hx).
    + left. eauto 10.
    + right. eauto 10.
  - intros [(l & names & a & H & Ha & Hx) | (l & m & names & lv & a & H & Ha & Hx)];
      right; eexists; (split; [exact H |]); simpl; eauto.
Qed.

(** ** Undefined variables *)

Section UndefinedPass.

Variable builtins_keys : gset string.

(** The messages of the pass are the rendering of [undefined_reports]. *)
Lemma check_undefined_variables_errors (self : CodeDebugger) (t : mod_) :
  tree self = Some t ->
  errors (check_undefined_variables builtins_keys self) =
  errors self
  ++ map (render undefined_message) (undefined_reports builtins_keys t).
Proof.
  intros Ht. unfold check_undefined_variables, undefined_reports. rewrite Ht.
  destruct (name_sets t) as [d i].
  rewrite (fold_left_appends _ (undefined_step_appends builtins_keys d i)).
  simpl. f_equal.
  induction (walk (NModule t)) as [|n l IH]; [reflexivity |].
  simpl. rewrite map_app, IH. f_equal.
  destruct n as [| | [] | | | | | | | |]; try reflexivity.
  destruct ctx; try reflexivity. simpl.
  destruct (bool_decide (id ∉ d) && bool_decide (id ∉ builtins builtins_keys)
            && bool_decide (id ∉ i)); reflexivity.
Qed.

(** A pair is reported exactly when it comes from a [Load] of a name that is
    in none of the three sets. *)
Lemma undefined_reports_spec (t : mod_) (id : string) (lineno : Z) :
  In (id, lineno) (undefined_reports builtins_keys t) <->
  In (NExpr (Name lineno id Load)) (walk (NModule t))
  /\ (id ∉ (name_sets t).1) /\ (id ∉ builtins builtins_keys)
  /\ (id ∉ (name_sets t).2).
Proof.
  unfold undefined_reports. destruct (name_sets t) as [d i]. simpl.
  rewrite in_flat_map. split.
  - intros (n & Hn & Hin).
    destruct n as [| | [] | | | | | | | |]; try contradiction.
    destruct ctx; try contradiction.
    destruct (bool_decide (id0 ∉ d)) eqn:Hd; simpl in Hin; [|contradiction].
    destruct (bool_decide (id0 ∉ builtins builtins_keys)) eqn:Hb;
      simpl in Hin; [|contradiction].
    destruct (bool_decide (id0 ∉ i)) eqn:Hi; simpl in Hin; [|contradiction].
    destruct Hin as [Heq | []]. inversion Heq; subst.
    apply bool_decide_eq_true in Hd, Hb, Hi. tauto.
  - intros (Hn & Hd & Hb & Hi). eexists. split; [exact Hn |]. simpl.
    rewrite !bool_decide_eq_true_2 by assumption. now left.
Qed.

(** C2, amended: a [Load] of a name that is stored nowhere in the tree, on
    no line before or after, and that is no function name, parameter, import
    or built-in, is reported; a [Load] of a name that is stored somewhere in
    the tree, even only on a later line, is not. *)
Theorem undefined_pass_reports (self : CodeDebugger) (t : mod_)
    (lineno : Z) (id : string) :
  tree self = Some t ->
  In (NExpr (Name lineno id Load)) (walk (NModule t)) ->
  (~ stored_in t id -> ~ function_in t id -> ~ parameter_in t id ->
   ~ imported_in t id -> id ∉ builtins builtins_keys ->
   In (id, lineno) (undefined_reports builtins_keys t)
   /\ In (undefined_message id lineno)
         (errors (check_undefined_variables builtins_keys self)))
  /\ (stored_in t id ->
      forall l, ~ In (id, l) (undefined_reports builtins_keys t))
  /\ errors (check_undefined_variables builtins_keys self) =
     errors self
     ++ map (render undefined_message) (undefined_reports builtins_keys t).
Proof.
  intros Ht Hn. split; [|split].
  - intros Hs Hf Hp Hi Hb.
    assert (Hrep : In (id, lineno) (undefined_reports builtins_keys t)).
    { apply undefined_reports_spec. split; [exact Hn |].
      rewrite defined_names_spec, imported_names_spec. tauto. }
    split; [exact Hrep |].
    rewrite (check_undefined_variables_errors self t Ht).
    apply in_or_app. right.
    change (undefined_message id lineno)
      with (render undefined_message (id, lineno)).
    now apply in_map.
  - intros Hs l Hin. apply undefined_reports_spec in Hin.
    destruct Hin as (_ & Hd & _). apply Hd. apply defined_names_spec. now left.
  - now apply check_undefined_variables_errors.
Qed.

(** C7, amended: a plain import without an alias binds the first segment of
    its dotted path, so no [Load] of that first segment is reported. *)
Theorem import_binds_first_segment (t : mod_) (lineno : Z)
    (names : list alias) (a : alias) :
  In (NStmt (Import lineno names)) (walk (NModule t)) ->
  In a names ->
  alias_asname a = None ->
  first_segment (alias_name a) ∈ (name_sets t).2
  /\ forall l, ~ In (first_segment (alias_name a), l)
                    (undefined_reports builtins_keys t).
Proof.
  intros Hn Ha Has.
  assert (Himp : first_segment (alias_name a) ∈ (name_sets t).2).
  { apply imported_names_spec. left. exists lineno, names, a.
    split; [exact Hn |]. split; [exact Ha |]. now rewrite Has. }
  split; [exact Himp |].
  intros l Hin. apply undefined_reports_spec in Hin. tauto.
Qed.

End UndefinedPass.

Ltac absent_from_walk H :=
  vm_compute in H; repeat (destruct H as [H | H]; [discriminate H |]);
  destruct H.

(** C2, as stated, fails: [x] is loaded on line 1, its only store is on
    line 2, it is no function name, parameter, import or built-in, and the
    pass reports nothing. *)
Lemma undefined_load_before_store_counterexample :
  In (NExpr (Name 1 "x" Load)) (walk (NModule load_then_store_tree))
  /\ (forall l, In (NExpr (Name l "x" Store))
                   (walk (NModule load_then_store_tree)) -> 1 < l)
  /\ ~ function_in load_then_store_tree "x"
  /\ ~ parameter_in load_then_store_tree "x"
  /\ ~ imported_in load_then_store_tree "x"
  /\ ("x" ∉ builtins cpython_builtins)
  /\ errors (check_undefined_variables cpython_builtins
               (parsed "print(x)" load_then_store_tree)) = [].
Proof.
  split; [in_walk |]. split.
  { intros l H. vm_compute in H.
    repeat (destruct H as [H | H];
            [first [discriminate H | injection H as <-; reflexivity] |]).
    destruct H. }
  split. { intros (l & a & b & d & r & H). absent_from_walk H. }
  split. { intros (l & n & a & b & d & r & x & H & _). absent_from_walk H. }
  split.
  { intros [(l & ns & a & H & Ha & Hx) | (l & m & ns & lv & a & H & _)].
    - absent_from_walk H.
    - absent_from_walk H. }
  split; [|vm_compute; reflexivity].
  apply (bool_decide_eq_true_1 _). vm_compute. reflexivity.
Qed.

Lemma undefined_pass_reports_witness :
  In (undefined_message "x" 4)
     (errors (check_undefined_variables cpython_builtins
                (parsed sample1_code sample1_tree)))
  /\ forall l, ~ In ("x", l)
                    (undefined_reports cpython_builtins load_then_store_tree).
Proof.
  split.
  - assert (H := proj1 (undefined_pass_reports cpython_builtins
                          (parsed sample1_code sample1_tree) sample1_tree 4 "x"
                          eq_refl ltac:(in_walk))).
    apply H.
    + intros (l & Hs). absent_from_walk Hs.
    + intros (l & a & b & d & r & Hf). vm_compute in Hf.
      repeat (destruct Hf as [Hf | Hf]; [discriminate Hf |]). destruct Hf.
    + intros (l & n & a & b & d & r & x & Hf & Hx & Hn). vm_compute in Hf.
      repeat (destruct Hf as [Hf | Hf];
              [first [discriminate Hf
                     | injection Hf as <- <- <- <- <- <-;
                       destruct Hx as [<- | [<- | []]]; discriminate Hn] |]).
      destruct Hf.
    + intros [(l & ns & a & Hi & _) | (l & m & ns & lv & a & Hi & _)];
        absent_from_walk Hi.
    + apply (bool_decide_eq_true_1 _). vm_compute. reflexivity.
  - refine (proj1 (proj2 (undefined_pass_reports cpython_builtins
                            (parsed "print(x)" load_then_store_tree)
                            load_then_store_tree 1 "x" eq_refl _)) _).
    + in_walk.
    + exists 2. in_walk.
Defined.

(** C7, as stated, fails: after [import os.path] a [Load] of the last
    segment [path] is reported undefined. *)
Lemma import_last_segment_counterexample :
  In (NStmt (Import 1 [mk_alias "os.path" None]))
     (walk (NModule dotted_import_last_tree))
  /\ last_segment "os.path" = "path"
  /\ In (NExpr (Name 2 "path" Load)) (walk (NModule dotted_import_last_tree))
  /\ errors (check_undefined_variables cpython_builtins
               (parsed "import os.path" dotted_import_last_tree)) =
     ["Undefined variable 'path' used at line 2. Fix: Define 'path' before use."].
Proof.
  split; [in_walk |]. split; [reflexivity |]. split; [in_walk |].
  vm_compute. reflexivity.
Qed.

Lemma import_binds_first_segment_witness :
  first_segment "os.path" = "os"
  /\ forall l, ~ In ("os", l)
                    (undefined_reports cpython_builtins dotted_import_first_tree).
Proof.
  split; [reflexivity |].
  refine (proj2 (import_binds_first_segment cpython_builtins
                   dotted_import_first_tree 1 [mk_alias "os.path" None]
                   (mk_alias "os.path" None) _ (or_introl eq_refl) eq_refl)).
  in_walk.
Defined.

(** ** Dictionaries *)

Lemma dict_set_keys {V : Type} (d : list (string * V)) (k : string) (v : V)
    (x : string) :
  In x (keys (dict_set d k v)) <-> x = k \/ In x (keys d).
Proof.
  unfold keys. induction d as [|[k' v'] d IH]; simpl.
  - intuition congruence.
  - destruct (decide (k' = k)) as [-> | Hne]; simpl.
    + intuition congruence.
    + rewrite IH. intuition congruence.
Qed.

Lemma dict_set_NoDup {V : Type} (d : list (string * V)) (k : string) (v : V) :
  List.NoDup (keys d) -> List.NoDup (keys (dict_set d k v)).
Proof.
  unfold keys. induction d as [|[k' v'] d IH]; simpl; intros Hnd.
  - constructor; [intros [] | constructor].
  - destruct (decide (k' = k)) as [-> | Hne]; simpl; [exact Hnd |].
    inversion Hnd as [|? ? Hnotin Hnd']; subst.
    constructor; [|now apply IH].
    intros Hin. apply (dict_set_keys d k v k') in Hin.
    destruct Hin as [-> | Hin]; [now apply Hne | now apply Hnotin].
Qed.

Lemma dict_set_params (params : list arg) :
  forall (d : list (string * Z)) (x : string),
    (In x (keys (fold_left (fun d a => dict_set d (arg_arg a) (arg_lineno a))
                           params d)) <->
     In x (keys d) \/ exists a, In a params /\ arg_arg a = x)
    /\ (List.NoDup (keys d) ->
        List.NoDup
          (keys (fold_left (fun d a => dict_set d (arg_arg a) (arg_lineno a))
                           params d))).
Proof.
  induction params as [|a params IH]; intros d x; simpl.
  - split; [|tauto]. split; [now left | intros [H | (a & [] & _)]; exact H].
  - destruct (IH (dict_set d (arg_arg a) (arg_lineno a)) x) as [IH1 IH2].
    split.
    + rewrite IH1, dict_set_keys. split.
      * intros [[-> | H] | (b & Hb & Hx)];
          [right; exists a; split; [now left | reflexivity] | now left
          | right; exists b; split; [now right | exact Hx]].
      * intros [H | (b & [<- | Hb] & Hx)];
          [left; now right | left; left; now symmetry | right; now exists b].
    + intros Hnd. apply IH2. now apply dict_set_NoDup.
Qed.

Lemma filter_keys_NoDup {V : Type} (g : string * V -> bool)
    (d : list (string * V)) :
  List.NoDup (keys d) -> List.NoDup (keys (List.filter g d)).
Proof.
  unfold keys. induction d as [|p d IH]; simpl; intros Hnd; [constructor |].
  inversion Hnd as [|? ? Hnotin Hnd']; subst.
  destruct (g p); simpl; [|now apply IH].
  constructor; [|now apply IH].
  intros Hin. apply Hnotin. apply in_map_iff in Hin.
  destruct Hin as (q & Hq & Hin). apply filter_In in Hin.
  apply in_map_iff. exists q. tauto.
Qed.


(** ** Unused variables *)

Lemma collect_usage_step (acc : list (string * Z) * gset string * gset string)
    (n : node) (x : string) :
  (In x (keys (collect_usage acc n).1.1) <-> In x (keys acc.1.1) \/ declares n x)
  /\ (x ∈ (collect_usage acc n).1.2 <-> x ∈ acc.1.2 \/ loads n x)
  /\ (x ∈ (collect_usage acc n).2 <-> x ∈ acc.2 \/ names_function n x)
  /\ (List.NoDup (keys acc.1.1) -> List.NoDup (keys (collect_usage acc n).1.1)).
Proof.
  destruct acc as [[d u] f].
  unfold collect_usage, declares, loads, names_function.
  destruct n as [| s | e | | | | | | | |]; simpl; try tauto.
  - destruct s; simpl; try tauto.
    destruct (dict_set_params (arguments_args args) d x) as [K1 K2].
    rewrite K1, elem_of_union, elem_of_singleton.
    split; [tauto |]. split; [tauto |]. split; [|exact K2].
    split; intros [H | H]; try tauto; [right | left]; now symmetry.
  - destruct e; simpl; try tauto.
    destruct ctx; simpl; try tauto.
    + rewrite elem_of_union, elem_of_singleton.
      split; [tauto |]. split; [|tauto].
      split; intros [H | H]; try tauto; [right | left]; now symmetry.
    + rewrite dict_set_keys.
      split; [|split; [tauto | split; [tauto | apply dict_set_NoDup]]].
      split; intros [H | H]; try tauto; [right | left]; now symmetry.
Qed.

Lemma or_exists_cons (A : Prop) (P : node -> Prop) (n : node) (l : list node) :
  (A \/ P n) \/ (exists m, In m l /\ P m) <->
  A \/ exists m, In m (n :: l) /\ P m.
Proof.
  split.
  - intros [[H | H] | (m & Hm & H)];
      [now left | right; exists n; split; [now left | exact H]
      | right; exists m; split; [now right | exact H]].
  - intros [H | (m & [<- | Hm] & H)]; [tauto | tauto | right; now exists m].
Qed.

Lemma collect_usage_fold (l : list node) :
  forall (acc : list (string * Z) * gset string * gset string) (x : string),
    (In x (keys (fold_left collect_usage l acc).1.1) <->
     In x (keys acc.1.1) \/ exists n, In n l /\ declares n x)
    /\ (x ∈ (fold_left collect_usage l acc).1.2 <->
        x ∈ acc.1.2 \/ exists n, In n l /\ loads n x)
    /\ (x ∈ (fold_left collect_usage l acc).2 <->
        x ∈ acc.2 \/ exists n, In n l /\ names_function n x)
    /\ (List.NoDup (keys acc.1.1) ->
        List.NoDup (keys (fold_left collect_usage l acc).1.1)).
Proof.
  induction l as [|n l IH]; intros acc x; simpl.
  - repeat split; try tauto; try (now left);
      intros [H | (n & [] & _)]; exact H.
  - destruct (IH (collect_usage acc n) x) as (IH1 & IH2 & IH3 & IH4).
    destruct (collect_usage_step acc n x) as (S1 & S2 & S3 & S4).
    split; [|split; [|split]].
    + rewrite IH1, S1. apply (or_exists_cons _ (fun m => declares m x)).
    + rewrite IH2, S2. apply (or_exists_cons _ (fun m => loads m x)).
    + rewrite IH3, S3. apply (or_exists_cons _ (fun m => names_function m x)).
    + intros Hnd. now apply IH4, S4.
Qed.

(** The dictionary's keys are the stored names and the parameter names, each
    once; the two sets are the loaded names and the function names. *)
Lemma usage_sets_spec (t : mod_) (x : string) :
  (In x (keys (usage_sets t).1.1) <-> stored_in t x \/ parameter_in t x)
  /\ (x ∈ (usage_sets t).1.2 <-> loaded_in t x)
  /\ (x ∈ (usage_sets t).2 <-> function_in t x)
  /\ List.NoDup (keys (usage_sets t).1.1).
Proof.
  unfold usage_sets.
  destruct (collect_usage_fold (walk (NModule t)) ([], ∅, ∅) x)
    as (K & U & F & N).
  rewrite K, U, F. simpl. repeat split.
  - intros [[] | (n & Hn & Hd)].
    destruct n as [| s | e | | | | | | | |]; simpl in Hd; try contradiction.
    + destruct s; try contradiction. destruct Hd as (a & Ha & <-).
      right. red. eauto 12.
    + destruct e; try contradiction. destruct ctx; try contradiction.
      subst. left. red. eauto.
  - intros [(l & H) | (l & name & args & body & decs & returns & a & H & Ha & Hx)];
      right; eexists; (split; [exact H |]); simpl; eauto.
  - intros [H | (n & Hn & Hd)]; [now apply not_elem_of_empty in H |].
    destruct n as [| | e | | | | | | | |]; simpl in Hd; try contradiction.
    destruct e; try contradiction. destruct ctx; try contradiction.
    subst. red. eauto.
  - intros (l & H). right. eexists. split; [exact H | reflexivity].
  - intros [H | (n & Hn & Hd)]; [now apply not_elem_of_empty in H |].
    destruct n as [| s | | | | | | | | |]; simpl in Hd; try contradiction.
    destruct s; try contradiction. subst. red. eauto 10.
  - intros (l & args & body & decs & returns & H).
    right. eexists. split; [exact H | reflexivity].
  - apply N. constructor.
Qed.

(** The messages of the pass are the rendering of [unused_reports]. *)
Lemma check_unused_variables_errors (self : CodeDebugger) (t : mod_) :
  tree self = Some t ->
  errors (check_unused_variables self) =
  errors self ++ map (render unused_message) (unused_reports t).
Proof.
  intros Ht. unfold check_unused_variables, unused_reports. rewrite Ht.
  destruct (usage_sets t) as [[d u] f].
  rewrite (fold_left_appends _ (unused_step_appends u f)). simpl. f_equal.
  induction d as [|[name lineno] d IH]; [reflexivity |].
  simpl. rewrite IH.
  destruct (bool_decide (name ∉ u) && bool_decide (name ∉ f)); reflexivity.
Qed.

Lemma unused_reports_spec (t : mod_) (name : string) (lineno : Z) :
  In (name, lineno) (unused_reports t) <->
  In (name, lineno) (usage_sets t).1.1
  /\ ~ loaded_in t name /\ ~ function_in t name.
Proof.
  destruct (usage_sets_spec t name) as (_ & U & F & _).
  unfold unused_reports. rewrite <- U, <- F.
  destruct (usage_sets t) as [[d u] f]. simpl.
  rewrite filter_In. simpl. rewrite andb_true_iff, !bool_decide_eq_true.
  tauto.
Qed.



(** ** Messages of distinct identifiers are distinct *)

Lemma append_quote_inj (a b r r' : string) :
  has_quote a = false -> has_quote b = false ->
  a +:+ String "'"%char r = b +:+ String "'"%char r' -> a = b.
Proof.
  revert b. induction a as [|c a IH]; intros [|c' b] Ha Hb Heq; simpl in *.
  - reflexivity.
  - injection Heq as <- _. now rewrite Ascii.eqb_refl in Hb.
  - injection Heq as -> _. now rewrite Ascii.eqb_refl in Ha.
  - apply orb_false_elim in Ha, Hb. injection Heq as <- Heq.
    f_equal. now apply (IH b).
Qed.

Lemma unused_message_inj (name name' : string) (lineno lineno' : Z) :
  has_quote name = false -> has_quote name' = false ->
  unused_message name lineno = unused_message name' lineno' -> name = name'.
Proof.
  intros Hq Hq' Heq. unfold unused_message in Heq. simpl in Heq.
  repeat (injection Heq as Heq).
  now apply (append_quote_inj _ _ _ _ Hq Hq' Heq).
Qed.

(** When the reported names are identifiers, the message of a reported name
    occurs exactly once among the messages the pass appends. *)
Lemma unused_message_once (d : list (string * Z)) (name : string) (lineno : Z) :
  List.NoDup (keys d) ->
  (forall k l, In (k, l) d -> has_quote k = false) ->
  In (name, lineno) d ->
  count_occ String.string_dec (map (render unused_message) d)
            (unused_message name lineno) = 1%nat.
Proof.
  unfold keys. induction d as [|[k v] d IH]; intros Hnd Hq Hin;
    [contradiction |].
  inversion Hnd as [|? ? Hnotin Hnd']; subst.
  assert (Hqn : has_quote name = false) by (eapply Hq; exact Hin).
  change (map (render unused_message) ((k, v) :: d))
    with (render unused_message (k, v) :: map (render unused_message) d).
  destruct (String.string_dec (render unused_message (k, v))
                              (unused_message name lineno)) as [Heq | Hne].
  - rewrite count_occ_cons_eq by exact Heq.
    assert (k = name).
    { apply (unused_message_inj _ _ _ _ (Hq k v (or_introl eq_refl)) Hqn Heq). }
    subst k. f_equal. apply count_occ_not_In. intros Hin'.
    apply in_map_iff in Hin'. destruct Hin' as ([k2 v2] & Hr & Hin2).
    assert (k2 = name).
    { apply (unused_message_inj _ _ _ _ (Hq k2 v2 (or_intror Hin2)) Hqn Hr). }
    subst k2. apply Hnotin. apply in_map_iff. now exists (name, v2).
  - rewrite count_occ_cons_neq by exact Hne.
    destruct Hin as [Heq | Hin]; [inversion Heq; subst; now destruct Hne |].
    apply IH; [exact Hnd' | | exact Hin].
    intros k' l' H'. apply (Hq k' l'). now right.
Qed.

Lemma check_unused_variables_once (self : CodeDebugger) (t : mod_)
    (name : string) (lineno : Z) :
  tree self = Some t ->
  (forall k l, In (k, l) (unused_reports t) -> has_quote k = false) ->
  In (name, lineno) (unused_reports t) ->
  exists added,
    errors (check_unused_variables self) = errors self ++ added
    /\ count_occ String.string_dec added (unused_message name lineno) = 1%nat.
Proof.
  intros Ht Hq Hin. eexists. split.
  - exact (check_unused_variables_errors self t Ht).
  - apply unused_message_once; [| exact Hq | exact Hin].
    destruct (usage_sets_spec t name) as (_ & _ & _ & N).
    unfold unused_reports. destruct (usage_sets t) as [[d u] f].
    now apply filter_keys_NoDup.
Qed.

(** ** What each pass leaves alone *)

Lemma fold_left_appends_frame {A : Type}
    (step : CodeDebugger -> A -> CodeDebugger) (l : list A)
    (self : CodeDebugger) :
  appends step ->
  code (fold_left step l self) = code self
  /\ tree (fold_left step l self) = tree self
  /\ extends (errors self) (errors (fold_left step l self))
  /\ extends (optimizations self) (optimizations (fold_left step l self))
  /\ extends (suggestions self) (suggestions (fold_left step l self)).
Proof.
  intros Happ. rewrite (fold_left_appends step Happ). simpl.
  repeat split; eexists; reflexivity.
Qed.

Lemma flat_map_nil {A B : Type} (f : A -> list B) (l : list A) :
  (forall x, f x = []) -> flat_map f l = [].
Proof.
  intros H. induction l as [|x l IH]; simpl; [reflexivity |].
  now rewrite H, IH.
Qed.

Ltac step_adds_nothing :=
  intros n; simpl;
  repeat (match goal with
          | |- context [match ?v with _ => _ end] => destruct v
          end; simpl);
  reflexivity.

Lemma undefined_step_frame (bk d i : gset string) (n : node) :
  optimizations (undefined_step bk d i blank n) = []
  /\ suggestions (undefined_step bk d i blank n) = [].
Proof. unfold undefined_step. split; revert n; step_adds_nothing. Qed.

Lemma unused_step_frame (u f : gset string) (item : string * Z) :
  optimizations (unused_step u f blank item) = []
  /\ suggestions (unused_step u f blank item) = [].
Proof. unfold unused_step. split; revert item; step_adds_nothing. Qed.

Lemma division_step_frame (n : node) : optimizations (division_step blank n) = [].
Proof. unfold division_step. revert n. step_adds_nothing. Qed.

Lemma redundant_step_frame (n : node) :
  optimizations (redundant_step blank n) = []
  /\ suggestions (redundant_step blank n) = [].
Proof. unfold redundant_step. split; revert n; step_adds_nothing. Qed.

Lemma loops_step_frame (n : node) :
  errors (loops_step blank n) = [] /\ suggestions (loops_step blank n) = [].
Proof.
  unfold loops_step. destruct n as [| [] | | | | | | | | |]; simpl; try tauto.
  destruct (is_call_to "range" iter).
  - destruct (forallb is_aug_add body); simpl; tauto.
  - match goal with |- context [existsb ?f ?l] => destruct (existsb f l) end;
      simpl; tauto.
Qed.

Lemma type_hints_step_frame (n : node) :
  errors (type_hints_step blank n) = []
  /\ optimizations (type_hints_step blank n) = [].
Proof.
  unfold type_hints_step. destruct n as [| [] | | | | | | | | |]; simpl; try tauto.
  rewrite (fold_left_appends _ (param_hint_step_appends _ _)). simpl.
  rewrite !flat_map_nil.
  - destruct returns; simpl; tauto.
  - intros a. unfold param_hint_step. now destruct (arg_annotation a).
  - intros a. unfold param_hint_step. now destruct (arg_annotation a).
Qed.

(** ** The passes as record updates *)

Lemma check_undefined_variables_run (bk : gset string) (self : CodeDebugger)
    (t : mod_) :
  tree self = Some t ->
  check_undefined_variables bk self =
  {| code := code self; tree := Some t;
     errors := errors self ++ map (render undefined_message) (undefined_reports bk t);
     optimizations := optimizations self; suggestions := suggestions self |}.
Proof.
  intros Ht. rewrite <- (check_undefined_variables_errors bk self t Ht).
  unfold check_undefined_variables. rewrite Ht.
  destruct (name_sets t) as [d i].
  rewrite (fold_left_appends _ (undefined_step_appends bk d i)), Ht. simpl.
  rewrite (flat_map_nil (fun x => optimizations (undefined_step bk d i blank x)))
    by (intros n; apply undefined_step_frame).
  rewrite (flat_map_nil (fun x => suggestions (undefined_step bk d i blank x)))
    by (intros n; apply undefined_step_frame).
  rewrite !app_nil_r. reflexivity.
Qed.

Lemma check_unused_variables_run (self : CodeDebugger) (t : mod_) :
  tree self = Some t ->
  check_unused_variables self =
  {| code := code self; tree := Some t;
     errors := errors self ++ map (render unused_message) (unused_reports t);
     optimizations := optimizations self; suggestions := suggestions self |}.
Proof.
  intros Ht. rewrite <- (check_unused_variables_errors self t Ht).
  unfold check_unused_variables. rewrite Ht.
  destruct (usage_sets t) as [[d u] f].
  rewrite (fold_left_appends _ (unused_step_appends u f)), Ht. simpl.
  rewrite (flat_map_nil (fun x => optimizations (unused_step u f blank x)))
    by (intros n; apply unused_step_frame).
  rewrite (flat_map_nil (fun x => suggestions (unused_step u f blank x)))
    by (intros n; apply unused_step_frame).
  rewrite !app_nil_r. reflexivity.
Qed.

Lemma check_division_by_zero_run (self : CodeDebugger) (t : mod_) :
  tree self = Some t ->
  check_division_by_zero self =
  {| code := code self; tree := Some t;
     errors := errors self
               ++ flat_map (fun n => errors (division_step blank n))
                    (walk (NModule t));
     optimizations := optimizations self;
     suggestions := suggestions self
                    ++ flat_map (fun n => suggestions (division_step blank n))
                         (walk (NModule t)) |}.
Proof.
  intros Ht. unfold check_division_by_zero.
  rewrite (for_each_node_appends _ division_step_appends self t Ht), Ht.
  rewrite (flat_map_nil _ _ division_step_frame), app_nil_r. reflexivity.
Qed.

Lemma check_inefficient_loops_run (self : CodeDebugger) (t : mod_) :
  tree self = Some t ->
  check_inefficient_loops self =
  {| code := code self; tree := Some t;
     errors := errors self;
     optimizations := optimizations self ++ tree_optimizations t;
     suggestions := suggestions self |}.
Proof.
  intros Ht. unfold check_inefficient_loops, tree_optimizations.
  rewrite (for_each_node_appends _ loops_step_appends self t Ht), Ht.
  rewrite (flat_map_nil (fun n => errors (loops_step blank n)))
    by (intros n; apply loops_step_frame).
  rewrite (flat_map_nil (fun n => suggestions (loops_step blank n)))
    by (intros n; apply loops_step_frame).
  rewrite !app_nil_r. reflexivity.
Qed.

Lemma check_redundant_code_run (self : CodeDebugger) (t : mod_) :
  tree self = Some t ->
  check_redundant_code self =
  {| code := code self; tree := Some t;
     errors := errors self
               ++ flat_map (fun n => errors (redundant_step blank n))
                    (walk (NModule t));
     optimizations := optimizations self; suggestions := suggestions self |}.
Proof.
  intros Ht. unfold check_redundant_code.
  rewrite (for_each_node_appends _ redundant_step_appends self t Ht), Ht.
  rewrite (flat_map_nil (fun n => optimizations (redundant_step blank n)))
    by (intros n; apply redundant_step_frame).
  rewrite (flat_map_nil (fun n => suggestions (redundant_step blank n)))
    by (intros n; apply redundant_step_frame).
  rewrite !app_nil_r. reflexivity.
Qed.

Lemma suggest_type_hints_run (self : CodeDebugger) (t : mod_) :
  tree self = Some t ->
  suggest_type_hints self =
  {| code := code self; tree := Some t;
     errors := errors self; optimizations := optimizations self;
     suggestions := suggestions self
                    ++ flat_map (fun n => suggestions (type_hints_step blank n))
                         (walk (NModule t)) |}.
Proof.
  intros Ht. unfold suggest_type_hints.
  rewrite (for_each_node_appends _ type_hints_step_appends self t Ht), Ht.
  rewrite (flat_map_nil (fun n => errors (type_hints_step blank n)))
    by (intros n; apply type_hints_step_frame).
  rewrite (flat_map_nil (fun n => optimizations (type_hints_step blank n)))
    by (intros n; apply type_hints_step_frame).
  rewrite !app_nil_r. reflexivity.
Qed.

(** ** The coordinator on a text that parses *)

Section Success.

Variable ast_parse : string -> parse_outcome.
Variable builtins_keys : gset string.

(** When the text of the object parses, [analyze] returns what the object
    already held followed by the findings of the undefined-variable, unused-
    variable, division and redundancy passes, in that order, for [errors], the
    findings of the loop pass for [optimizations], and the division
    suggestions followed by the type hints for [suggestions]; the object keeps
    its text and holds the tree. *)
Theorem analyze_success (self : CodeDebugger) (t : mod_) :
  ast_parse (code self) = Parsed t ->
  fst (analyze ast_parse builtins_keys self) =
    {| res_errors := errors self ++ tree_errors builtins_keys t;
       res_optimizations := optimizations self ++ tree_optimizations t;
       res_suggestions := suggestions self ++ tree_suggestions t |}
  /\ snd (analyze ast_parse builtins_keys self) =
     {| code := code self; tree := Some t;
        errors := errors self ++ tree_errors builtins_keys t;
        optimizations := optimizations self ++ tree_optimizations t;
        suggestions := suggestions self ++ tree_suggestions t |}.
Proof.
  intros Hp. unfold analyze, parse_code. rewrite Hp. simpl.
  rewrite check_undefined_variables_run with (t := t) by reflexivity. simpl.
  rewrite check_unused_variables_run with (t := t) by reflexivity. simpl.
  rewrite check_division_by_zero_run with (t := t) by reflexivity. simpl.
  rewrite check_inefficient_loops_run with (t := t) by reflexivity. simpl.
  rewrite check_redundant_code_run with (t := t) by reflexivity. simpl.
  rewrite suggest_type_hints_run with (t := t) by reflexivity. simpl.
  unfold tree_errors, tree_suggestions. rewrite <- !app_assoc.
  split; reflexivity.
Qed.

(** The accumulators are never reset: a second [analyze] on the same object
    returns every finding of the first one twice. *)
Theorem analyze_again_doubles (code_string : string) (t : mod_) :
  ast_parse (strip code_string) = Parsed t ->
  let first := analyze ast_parse builtins_keys (init code_string) in
  let second := analyze ast_parse builtins_keys (snd first) in
  res_errors (fst second) = res_errors (fst first) ++ res_errors (fst first)
  /\ res_optimizations (fst second) =
     res_optimizations (fst first) ++ res_optimizations (fst first)
  /\ res_suggestions (fst second) =
     res_suggestions (fst first) ++ res_suggestions (fst first).
Proof.
  intros Hp first second. subst first second.
  destruct (analyze_success (init code_string) t Hp) as [R1 S1].
  rewrite S1, R1.
  destruct (analyze_success
              {| code := code (init code_string); tree := Some t;
                 errors := errors (init code_string) ++ tree_errors builtins_keys t;
                 optimizations :=
                   optimizations (init code_string) ++ tree_optimizations t;
                 suggestions := suggestions (init code_string) ++ tree_suggestions t |}
              t Hp) as [R2 _].
  rewrite R2. simpl. tauto.
Qed.

End Success.

Lemma analyze_success_witness :
  fst (analyze sample_parse cpython_builtins (init sample1_code)) =
  {| res_errors := tree_errors cpython_builtins sample1_tree;
     res_optimizations := tree_optimizations sample1_tree;
     res_suggestions := tree_suggestions sample1_tree |}.
Proof.
  refine (proj1 (analyze_success sample_parse cpython_builtins
                   (init sample1_code) sample1_tree _)).
  vm_compute. reflexivity.
Defined.

Lemma analyze_again_doubles_witness :
  res_errors
    (fst (analyze sample_parse cpython_builtins
            (snd (analyze sample_parse cpython_builtins (init sample1_code))))) =
  res_errors (fst (analyze sample_parse cpython_builtins (init sample1_code)))
  ++ res_errors (fst (analyze sample_parse cpython_builtins (init sample1_code))).
Proof.
  refine (proj1 (analyze_again_doubles sample_parse cpython_builtins
                   sample1_code sample1_tree _)).
  vm_compute. reflexivity.
Defined.

(** Every pass keeps the text and the tree, never removes or reorders what
    the accumulators hold, and writes only to its own accumulators: the two
    name passes and the redundancy pass to [errors], the division pass to
    [errors] and [suggestions], the loop pass to [optimizations], the type-hint
    pass to [suggestions]. *)
Theorem passes_only_append (builtins_keys : gset string) (self : CodeDebugger) :
  let untouched (self' : CodeDebugger) :=
    code self' = code self /\ tree self' = tree self in
  (untouched (check_undefined_variables builtins_keys self)
   /\ extends (errors self)
        (errors (check_undefined_variables builtins_keys self))
   /\ optimizations (check_undefined_variables builtins_keys self)
      = optimizations self
   /\ suggestions (check_undefined_variables builtins_keys self)
      = suggestions self)
  /\ (untouched (check_unused_variables self)
      /\ extends (errors self) (errors (check_unused_variables self))
      /\ optimizations (check_unused_variables self) = optimizations self
      /\ suggestions (check_unused_variables self) = suggestions self)
  /\ (untouched (check_division_by_zero self)
      /\ extends (errors self) (errors (check_division_by_zero self))
      /\ optimizations (check_division_by_zero self) = optimizations self
      /\ extends (suggestions self) (suggestions (check_division_by_zero self)))
  /\ (untouched (check_inefficient_loops self)
      /\ errors (check_inefficient_loops self) = errors self
      /\ extends (optimizations self)
           (optimizations (check_inefficient_loops self))
      /\ suggestions (check_inefficient_loops self) = suggestions self)
  /\ (untouched (check_redundant_code self)
      /\ extends (errors self) (errors (check_redundant_code self))
      /\ optimizations (check_redundant_code self) = optimizations self
      /\ suggestions (check_redundant_code self) = suggestions self)
  /\ (untouched (suggest_type_hints self)
      /\ errors (suggest_type_hints self) = errors self
      /\ optimizations (suggest_type_hints self) = optimizations self
      /\ extends (suggestions self) (suggestions (suggest_type_hints self))).
Proof.
  intros untouched. subst untouched. unfold extends.
  destruct (tree self) as [t|] eqn:Ht.
  - rewrite (check_undefined_variables_run builtins_keys self t Ht),
      (check_unused_variables_run self t Ht),
      (check_division_by_zero_run self t Ht),
      (check_inefficient_loops_run self t Ht),
      (check_redundant_code_run self t Ht),
      (suggest_type_hints_run self t Ht).
    simpl. repeat split; eauto.
  - unfold check_undefined_variables, check_unused_variables,
      check_division_by_zero, check_inefficient_loops, check_redundant_code,
      suggest_type_hints, for_each_node.
    rewrite Ht. rewrite Ht.
    repeat split; try (exists []; now rewrite app_nil_r).
Qed.

(** ** White space around the text *)

Lemma lstrip_all_space (ws : string) : all_space ws = true -> lstrip ws = EmptyString.
Proof.
  induction ws as [|c ws IH]; simpl; [reflexivity |].
  intros H. apply andb_true_iff in H. destruct H as [Hc Hws].
  rewrite Hc. now apply IH.
Qed.

Lemma lstrip_app_space (ws s : string) :
  all_space ws = true -> lstrip (ws +:+ s) = lstrip s.
Proof.
  induction ws as [|c ws IH]; simpl; [reflexivity |].
  intros H. apply andb_true_iff in H. destruct H as [Hc Hws].
  rewrite Hc. now apply IH.
Qed.

Lemma rstrip_all_space (ws : string) : all_space ws = true -> rstrip ws = EmptyString.
Proof.
  induction ws as [|c ws IH]; simpl; [reflexivity |].
  intros H. apply andb_true_iff in H. destruct H as [Hc Hws].
  now rewrite (IH Hws), Hc.
Qed.

Lemma rstrip_app_space (s ws : string) :
  all_space ws = true -> rstrip (s +:+ ws) = rstrip s.
Proof.
  intros Hws. induction s as [|c s IH].
  - now apply rstrip_all_space.
  - change (rstrip (String c (s +:+ ws)) = rstrip (String c s)).
    simpl. now rewrite IH.
Qed.

Lemma strip_app_space (s ws : string) :
  all_space ws = true -> strip (s +:+ ws) = strip s.
Proof.
  intros Hws. unfold strip. induction s as [|c s IH]; simpl.
  - change (EmptyString +:+ ws) with ws. now rewrite (lstrip_all_space ws Hws).
  - destruct (isspace c); [exact IH |].
    apply (rstrip_app_space (String c s) ws Hws).
Qed.

(** [strip] ignores white space put before and after a text. *)
Lemma strip_padding (before s after : string) :
  all_space before = true -> all_space after = true ->
  strip (before +:+ s +:+ after) = strip s.
Proof.
  intros Hb Ha. unfold strip at 1. rewrite (lstrip_app_space before _ Hb).
  exact (strip_app_space s after Ha).
Qed.

(** Blank lines and indentation around a snippet never change what [analyze]
    returns nor the state it leaves. *)
Theorem analyze_ignores_padding (ast_parse : string -> parse_outcome)
    (builtins_keys : gset string) (before code_string after : string) :
  all_space before = true -> all_space after = true ->
  analyze ast_parse builtins_keys (init (before +:+ code_string +:+ after)) =
  analyze ast_parse builtins_keys (init code_string).
Proof.
  intros Hb Ha. unfold init. now rewrite (strip_padding _ _ _ Hb Ha).
Qed.

Lemma analyze_ignores_padding_witness :
  analyze sample_parse cpython_builtins (init sample1_code) =
  analyze sample_parse cpython_builtins (init (strip sample1_code)).
Proof.
  assert (H : sample1_code = String "010"%char EmptyString +:+ strip sample1_code
                             +:+ String "010"%char "            ")
    by (vm_compute; reflexivity).
  rewrite H at 1.
  apply (analyze_ignores_padding sample_parse cpython_builtins); reflexivity.
Defined.

(** ** Undefined variables: what is and is not reported *)

Section UndefinedSound.

Variable builtins_keys : gset string.



(** An unbound name is reported once for each of its [Load] occurrences, in
    the order of the walk. *)
Theorem undefined_pass_every_occurrence (t : mod_) (id : string) :
  ~ stored_in t id -> ~ function_in t id -> ~ parameter_in t id ->
  ~ imported_in t id -> id ∉ builtins builtins_keys ->
  map snd (List.filter (fun item => bool_decide (item.1 = id))
                       (undefined_reports builtins_keys t))
  = load_lines t id.
Proof.
  intros Hs Hf Hp Hi Hb.
  assert (Hd : id ∉ (name_sets t).1) by (rewrite defined_names_spec; tauto).
  assert (Hi' : id ∉ (name_sets t).2) by (now rewrite imported_names_spec).
  unfold undefined_reports, load_lines.
  destruct (name_sets t) as [d i]. simpl in Hd, Hi'.
  induction (walk (NModule t)) as [|n l IH]; [reflexivity |].
  simpl. rewrite List.filter_app, map_app, IH. f_equal.
  destruct n as [| | [] | | | | | | | |]; try reflexivity.
  destruct ctx; try reflexivity.
  destruct (decide (id0 = id)) as [-> | Hne].
  - rewrite !bool_decide_eq_true_2 by assumption. simpl.
    now rewrite bool_decide_eq_true_2.
  - destruct (bool_decide (id0 ∉ d) && bool_decide (id0 ∉ builtins builtins_keys)
              && bool_decide (id0 ∉ i)); [|reflexivity].
    simpl. now rewrite bool_decide_eq_false_2.
Qed.

End UndefinedSound.



Lemma undefined_pass_every_occurrence_witness :
  map snd (List.filter (fun item => bool_decide (item.1 = "x"))
                       (undefined_reports cpython_builtins sample1_tree))
  = load_lines sample1_tree "x".
Proof.
  apply (undefined_pass_every_occurrence cpython_builtins sample1_tree "x").
  - intros (l & Hs). absent_from_walk Hs.
  - intros (l & a & b & d & r & Hf). absent_from_walk Hf.
  - intros (l & n & a & b & d & r & x & Hf & Hx & Hn). vm_compute in Hf.
    repeat (destruct Hf as [Hf | Hf];
            [first [discriminate Hf
                   | injection Hf as <- <- <- <- <- <-;
                     destruct Hx as [<- | [<- | []]]; discriminate Hn] |]).
    destruct Hf.
  - intros [(l & ns & a & Hi & _) | (l & m & ns & lv & a & Hi & _)];
      absent_from_walk Hi.
  - apply (bool_decide_eq_true_1 _). vm_compute. reflexivity.
Defined.

(** ** Unused variables: what is reported, and with which line *)

(** Every message the unused-variable pass adds is about a name that is stored
    or is a parameter somewhere in the tree, is loaded nowhere and is no
    function name; in particular names bound only by imports are never
    reported. *)
Theorem unused_pass_sound (self : CodeDebugger) (t : mod_) (e : string) :
  tree self = Some t ->
  In e (errors (check_unused_variables self)) ->
  In e (errors self)
  \/ exists name lineno,
      e = unused_message name lineno
      /\ (stored_in t name \/ parameter_in t name)
      /\ ~ loaded_in t name /\ ~ function_in t name.
Proof.
  intros Ht He. rewrite (check_unused_variables_errors self t Ht) in He.
  apply in_app_or in He. destruct He as [He | He]; [now left | right].
  apply in_map_iff in He. destruct He as ([name lineno] & <- & Hin).
  apply unused_reports_spec in Hin. destruct Hin as (Hd & Hl & Hf).
  exists name, lineno. split; [reflexivity |]. split; [|tauto].
  apply (usage_sets_spec t name). unfold keys. apply in_map_iff.
  now exists (name, lineno).
Qed.

Lemma unused_pass_sound_witness :
  In "Unused variable 'risky' defined at line 8."
     (errors (parsed sample1_code sample1_tree))
  \/ exists name lineno,
      "Unused variable 'risky' defined at line 8." = unused_message name lineno
      /\ (stored_in sample1_tree name \/ parameter_in sample1_tree name)
      /\ ~ loaded_in sample1_tree name /\ ~ function_in sample1_tree name.
Proof.
  apply (unused_pass_sound (parsed sample1_code sample1_tree) sample1_tree _
           eq_refl).
  vm_compute. right. now left.
Defined.

Lemma dict_get_set_eq {V : Type} (d : list (string * V)) (k : string) (v : V) :
  dict_get (dict_set d k v) k = Some v.
Proof.
  induction d as [|[k' v'] d IH]; simpl.
  - now rewrite decide_True.
  - destruct (decide (k' = k)) as [-> | Hne]; simpl.
    + now rewrite decide_True.
    + now rewrite decide_False.
Qed.

Lemma dict_get_set_ne {V : Type} (d : list (string * V)) (k k' : string) (v : V) :
  k <> k' -> dict_get (dict_set d k v) k' = dict_get d k'.
Proof.
  intros Hne. induction d as [|[k2 v2] d IH]; simpl.
  - now rewrite decide_False.
  - destruct (decide (k2 = k)) as [-> | Hne2]; simpl.
    + now rewrite !decide_False.
    + destruct (decide (k2 = k')); [reflexivity | exact IH].
Qed.

Lemma dict_get_In {V : Type} (d : list (string * V)) (k : string) (v : V) :
  List.NoDup (keys d) -> In (k, v) d -> dict_get d k = Some v.
Proof.
  unfold keys. induction d as [|[k' v'] d IH]; simpl; intros Hnd Hin;
    [contradiction |].
  inversion Hnd as [|? ? Hnotin Hnd']; subst.
  destruct Hin as [Heq | Hin].
  - inversion Heq; subst. now rewrite decide_True.
  - rewrite decide_False; [now apply IH |].
    intros ->. apply Hnotin. apply in_map_iff. now exists (k, v).
Qed.

(** The line a run of parameters leaves in the dictionary for [x]. *)
Lemma dict_set_params_line (params : list arg) (x : string) :
  forall (d : list (string * Z)),
    dict_get (fold_left (fun d a => dict_set d (arg_arg a) (arg_lineno a))
                        params d) x
    = fold_left (fun acc a =>
                   if decide (arg_arg a = x) then Some (arg_lineno a) else acc)
                params (dict_get d x).
Proof.
  induction params as [|a params IH]; intros d; simpl; [reflexivity |].
  rewrite IH. f_equal.
  destruct (decide (arg_arg a = x)) as [<- | Hne].
  - apply dict_get_set_eq.
  - now apply dict_get_set_ne.
Qed.

Lemma last_param_line_default (params : list arg) (x : string) (o : option Z) :
  fold_left (fun acc a =>
               if decide (arg_arg a = x) then Some (arg_lineno a) else acc)
            params o
  = match fold_left (fun acc a =>
                       if decide (arg_arg a = x) then Some (arg_lineno a)
                       else acc) params None with
    | Some l => Some l
    | None => o
    end.
Proof.
  revert o. induction params as [|a params IH]; intros o; simpl; [reflexivity |].
  destruct (decide (arg_arg a = x)); [|apply IH].
  rewrite (IH (Some (arg_lineno a))).
  destruct (fold_left (fun acc a0 =>
                         if decide (arg_arg a0 = x) then Some (arg_lineno a0)
                         else acc) params None); reflexivity.
Qed.

Lemma collect_usage_line (acc : list (string * Z) * gset string * gset string)
    (n : node) (x : string) :
  dict_get (collect_usage acc n).1.1 x =
  match declared_line n x with
  | Some l => Some l
  | None => dict_get acc.1.1 x
  end.
Proof.
  destruct acc as [[d u] f]. unfold collect_usage, declared_line.
  destruct n as [| s | e | | | | | | | |]; simpl; try reflexivity.
  - destruct s; simpl; try reflexivity.
    rewrite dict_set_params_line. apply last_param_line_default.
  - destruct e; simpl; try reflexivity.
    destruct ctx; simpl; try reflexivity.
    destruct (decide (id = x)) as [-> | Hne].
    + apply dict_get_set_eq.
    + now apply dict_get_set_ne.
Qed.

Lemma collect_usage_fold_line (post : list node) (x : string) :
  (forall m, In m post -> declared_line m x = None) ->
  forall acc,
    dict_get (fold_left collect_usage post acc).1.1 x = dict_get acc.1.1 x.
Proof.
  induction post as [|m post IH]; intros Hpost acc; simpl; [reflexivity |].
  rewrite IH by (intros m' Hm'; apply Hpost; now right).
  rewrite collect_usage_line, (Hpost m) by now left. reflexivity.
Qed.

(** The line in the message for an unused name is the one recorded by the
    last node of the breadth-first walk that stores the name or has it as a
    parameter, which need not be the last such line of the text. *)
Theorem unused_pass_reports_last_line (t : mod_) (x : string)
    (pre post : list node) (n : node) (l : Z) :
  walk (NModule t) = pre ++ n :: post ->
  declared_line n x = Some l ->
  (forall m, In m post -> declared_line m x = None) ->
  forall l', In (x, l') (unused_reports t) -> l' = l.
Proof.
  intros Hwalk Hn Hpost l' Hin.
  apply unused_reports_spec in Hin. destruct Hin as (Hd & _).
  destruct (usage_sets_spec t x) as (_ & _ & _ & Hnd).
  apply (dict_get_In _ _ _ Hnd) in Hd.
  unfold usage_sets in Hd. rewrite Hwalk, fold_left_app in Hd. simpl in Hd.
  rewrite (collect_usage_fold_line post x Hpost) in Hd.
  rewrite collect_usage_line, Hn in Hd. congruence.
Qed.

Lemma unused_pass_reports_last_line_witness :
  In ("x", 2) (unused_reports nested_store_tree)
  /\ forall l', In ("x", l') (unused_reports nested_store_tree) -> l' = 2.
Proof.
  split; [vm_compute; now left |].
  refine (unused_pass_reports_last_line nested_store_tree "x"
            [NModule nested_store_tree;
             NStmt (If 1 (Name 1 "c" Load)
                      [Assign 2 [Name 2 "x" Store] (Constant 2 (VInt 1))] []);
             NStmt (Assign 3 [Name 3 "x" Store] (Constant 3 (VInt 2)));
             NExpr (Name 1 "c" Load);
             NStmt (Assign 2 [Name 2 "x" Store] (Constant 2 (VInt 1)));
             NExpr (Name 3 "x" Store); NExpr (Constant 3 (VInt 2));
             NContext Load]
            [NExpr (Constant 2 (VInt 1)); NContext Store; NContext Store]
            (NExpr (Name 2 "x" Store)) 2 _ eq_refl _).
  - vm_compute. reflexivity.
  - intros m Hm. repeat (destruct Hm as [<- | Hm]; [reflexivity |]). destruct Hm.
Defined.

(** ** Exactly which nodes the tree passes report *)

Ltac dead H := simpl in H; contradiction.

Lemma division_step_errors_inv (n : node) (e : string) :
  In e (errors (division_step blank n)) ->
  exists lineno lhs op cl v,
    n = NExpr (BinOp lineno lhs op (Constant cl v))
    /\ is_division op = true /\ constant_eq_zero v = true
    /\ e = division_error lineno.
Proof.
  intros H. unfold division_step in H.
  destruct n as [| | ex | | | | | | | |]; try dead H.
  destruct ex as [l lhs op rhs | | | | | | | | |]; try dead H.
  destruct (is_division op) eqn:Hop; [|dead H].
  destruct rhs as [| | | | cl v | | | | |]; try dead H.
  destruct (constant_eq_zero v) eqn:Hz; [|dead H].
  destruct H as [<- | []]. eauto 10.
Qed.

Lemma division_step_suggestions_inv (n : node) (e : string) :
  In e (suggestions (division_step blank n)) ->
  exists lineno lhs op nl id c,
    n = NExpr (BinOp lineno lhs op (Name nl id c))
    /\ is_division op = true /\ e = division_suggestion lineno id.
Proof.
  intros H. unfold division_step in H.
  destruct n as [| | ex | | | | | | | |]; try dead H.
  destruct ex as [l lhs op rhs | | | | | | | | |]; try dead H.
  destruct (is_division op) eqn:Hop; [|dead H].
  destruct rhs as [| | | | cl v | | | nl id c | |]; try dead H.
  - destruct (constant_eq_zero v); dead H.
  - destruct H as [<- | []]. eauto 10.
Qed.

(** The division pass adds an error exactly for the [/], [//] and [%]
    operations whose right operand is a literal equal to zero, and a
    suggestion exactly for those whose right operand is a bare name; a
    non-zero literal, a call, an attribute or any other expression on the
    right, and every other operator, add nothing. *)
Theorem division_pass_exact (self : CodeDebugger) (t : mod_) (e : string) :
  tree self = Some t ->
  (In e (errors (check_division_by_zero self)) <->
   In e (errors self)
   \/ exists lineno lhs op cl v,
       In (NExpr (BinOp lineno lhs op (Constant cl v))) (walk (NModule t))
       /\ is_division op = true /\ constant_eq_zero v = true
       /\ e = division_error lineno)
  /\ (In e (suggestions (check_division_by_zero self)) <->
      In e (suggestions self)
      \/ exists lineno lhs op nl id c,
          In (NExpr (BinOp lineno lhs op (Name nl id c))) (walk (NModule t))
          /\ is_division op = true /\ e = division_suggestion lineno id).
Proof.
  intros Ht. rewrite (check_division_by_zero_run self t Ht). simpl.
  rewrite !in_app_iff, !in_flat_map. split; split.
  - intros [H | (n & Hn & H)]; [now left | right].
    apply division_step_errors_inv in H.
    destruct H as (l & lhs & op & cl & v & -> & Hop & Hz & ->). eauto 12.
  - intros [H | (l & lhs & op & cl & v & Hn & Hop & Hz & ->)]; [now left | right].
    eexists. split; [exact Hn |]. simpl. rewrite Hop, Hz. now left.
  - intros [H | (n & Hn & H)]; [now left | right].
    apply division_step_suggestions_inv in H.
    destruct H as (l & lhs & op & nl & id & c & -> & Hop & ->). eauto 12.
  - intros [H | (l & lhs & op & nl & id & c & Hn & Hop & ->)]; [now left | right].
    eexists. split; [exact Hn |]. simpl. rewrite Hop. now left.
Qed.

Lemma redundant_step_errors_inv (n : node) (e : string) :
  In e (errors (redundant_step blank n)) ->
  (exists lineno tl x tc vl vc,
      n = NStmt (Assign lineno [Name tl x tc] (Name vl x vc))
      /\ e = redundant_assignment_message x lineno)
  \/ (exists lineno tl x tc bl lhs cl v,
         n = NStmt (Assign lineno [Name tl x tc]
                      (BinOp bl lhs Add (Constant cl v)))
         /\ constant_eq_zero v = true
         /\ e = redundant_operation_message x lineno).
Proof.
  intros H. unfold redundant_step in H.
  destruct n as [| s | | | | | | | | |]; try dead H.
  destruct s as [| | lineno targets value | | | | | | | |]; try dead H.
  destruct targets as [|tg [|tg2 rest]]; try dead H.
  - destruct tg as [| | | | | | | tl x tc | |]; try dead H.
    destruct value as [bl lhs op rhs | | | | | | | vl id vc | |]; try dead H.
    + destruct op; try dead H.
      destruct rhs as [| | | | cl v | | | | |]; try dead H.
      destruct (constant_eq_zero v) eqn:Hz; [|dead H].
      destruct H as [<- | []]. right. eauto 12.
    + destruct (bool_decide (id = x)) eqn:Hb; [|dead H].
      apply bool_decide_eq_true in Hb. subst id.
      destruct H as [<- | []]. left. eauto 10.
  - destruct tg; dead H.
Qed.

(** The redundancy pass adds an error exactly for the assignments with one
    target that is a bare name and a value that is either that same name or
    an addition whose right operand is a literal equal to zero; assignments
    with several targets or with an attribute, subscript or tuple target,
    augmented assignments, and values such as [0 + x], [x - 0] or [x * 1]
    add nothing. *)
Theorem redundant_pass_exact (self : CodeDebugger) (t : mod_) (e : string) :
  tree self = Some t ->
  In e (errors (check_redundant_code self)) <->
  In e (errors self)
  \/ (exists lineno tl x tc vl vc,
         In (NStmt (Assign lineno [Name tl x tc] (Name vl x vc)))
            (walk (NModule t))
         /\ e = redundant_assignment_message x lineno)
  \/ (exists lineno tl x tc bl lhs cl v,
         In (NStmt (Assign lineno [Name tl x tc]
                      (BinOp bl lhs Add (Constant cl v))))
            (walk (NModule t))
         /\ constant_eq_zero v = true
         /\ e = redundant_operation_message x lineno).
Proof.
  intros Ht. rewrite (check_redundant_code_run self t Ht). simpl.
  rewrite in_app_iff, in_flat_map. split.
  - intros [H | (n & Hn & H)]; [now left | right].
    apply redundant_step_errors_inv in H.
    destruct H as [(l & tl & x & tc & vl & vc & -> & ->)
                  | (l & tl & x & tc & bl & lhs & cl & v & -> & Hz & ->)];
      [left | right]; eauto 14.
  - intros [H | [(l & tl & x & tc & vl & vc & Hn & ->)
                | (l & tl & x & tc & bl & lhs & cl & v & Hn & Hz & ->)]];
      [now left | right | right]; (eexists; split; [exact Hn |]); simpl.
    + rewrite bool_decide_eq_true_2 by reflexivity. now left.
    + rewrite Hz. now left.
Qed.

Lemma loops_step_optimizations_inv (n : node) (e : string) :
  In e (optimizations (loops_step blank n)) ->
  exists lineno target iter body orelse,
    n = NStmt (For lineno target iter body orelse)
    /\ ((is_call_to "range" iter = true /\ forallb is_aug_add body = true
         /\ e = sum_message lineno)
        \/ (is_call_to "range" iter = false
            /\ existsb is_append_call (walk n) = true
            /\ e = comprehension_message lineno)).
Proof.
  intros H. unfold loops_step in H.
  destruct n as [| s | | | | | | | | |]; try dead H.
  destruct s as [| | | | lineno target iter body orelse | | | | | |]; try dead H.
  exists lineno, target, iter, body, orelse. split; [reflexivity |].
  destruct (is_call_to "range" iter).
  - destruct (forallb is_aug_add body); [|dead H].
    destruct H as [<- | []]. now left.
  - destruct (existsb is_append_call
                (walk (NStmt (For lineno target iter body orelse)))) eqn:Hex;
      [|dead H].
    destruct H as [<- | []]. now right.
Qed.

(** The loop pass adds a suggestion exactly for the [for] loops that iterate
    over a call to the bare name [range] and whose direct body statements are
    all [+=], and for the [for] loops over anything else that hold a call to
    the bare name [append]; [while] loops, and loops whose only [append]
    calls are method calls, add nothing. *)
Theorem loops_pass_exact (self : CodeDebugger) (t : mod_) (e : string) :
  tree self = Some t ->
  In e (optimizations (check_inefficient_loops self)) <->
  In e (optimizations self)
  \/ exists lineno target iter body orelse,
      In (NStmt (For lineno target iter body orelse)) (walk (NModule t))
      /\ ((is_call_to "range" iter = true /\ forallb is_aug_add body = true
           /\ e = sum_message lineno)
          \/ (is_call_to "range" iter = false
              /\ (exists cl nl nc args keywords,
                     descendant (NStmt (For lineno target iter body orelse))
                       (NExpr (Call cl (Name nl "append" nc) args keywords)))
              /\ e = comprehension_message lineno)).
Proof.
  intros Ht. rewrite (check_inefficient_loops_run self t Ht). simpl.
  unfold tree_optimizations. rewrite in_app_iff, in_flat_map. split.
  - intros [H | (n & Hn & H)]; [now left | right].
    apply loops_step_optimizations_inv in H.
    destruct H as (l & tg & it & body & orelse & -> & H).
    exists l, tg, it, body, orelse. split; [exact Hn |].
    destruct H as [H | (Hr & Hex & ->)]; [now left | right].
    split; [exact Hr |]. split; [|reflexivity].
    apply existsb_exists in Hex. destruct Hex as (c & Hc & Happ).
    apply walk_spec in Hc.
    destruct c as [| | ex | | | | | | | |]; try discriminate Happ.
    destruct ex as [| | | cl fn args kws | | | | | |]; try discriminate Happ.
    destruct fn as [| | | | | | | nl id nc | |]; try discriminate Happ.
    simpl in Happ. apply bool_decide_eq_true in Happ. subst id. eauto 10.
  - intros [H | (l & tg & it & body & orelse & Hn & H)]; [now left | right].
    eexists. split; [exact Hn |]. unfold loops_step.
    destruct H as [(Hr & Hs & ->) | (Hr & (cl & nl & nc & args & kws & Hd) & ->)].
    + rewrite Hr, Hs. now left.
    + rewrite Hr.
      assert (Hex : existsb is_append_call
                      (walk (NStmt (For l tg it body orelse))) = true).
      { apply existsb_exists. eexists. split; [apply walk_spec; exact Hd |].
        reflexivity. }
      rewrite Hex. now left.
Qed.

Lemma division_pass_exact_witness :
  In (division_error 8) (errors (parsed sample1_code sample1_tree))
  \/ exists lineno lhs op cl v,
      In (NExpr (BinOp lineno lhs op (Constant cl v)))
         (walk (NModule sample1_tree))
      /\ is_division op = true /\ constant_eq_zero v = true
      /\ division_error 8 = division_error lineno.
Proof.
  apply (proj1 (division_pass_exact (parsed sample1_code sample1_tree)
                  sample1_tree (division_error 8) eq_refl)).
  vm_compute. now left.
Defined.

Lemma redundant_pass_exact_witness :
  In (redundant_assignment_message "result" 7)
     (errors (check_redundant_code (parsed sample1_code sample1_tree))).
Proof.
  apply (redundant_pass_exact (parsed sample1_code sample1_tree) sample1_tree
           (redundant_assignment_message "result" 7) eq_refl).
  right. left. exists 7, 7, "result", Store, 7, Load. split; [in_walk | reflexivity].
Defined.

Lemma loops_pass_exact_witness :
  In (sum_message 5)
     (optimizations (check_inefficient_loops (parsed sample1_code sample1_tree))).
Proof.
  apply (loops_pass_exact (parsed sample1_code sample1_tree) sample1_tree
           (sum_message 5) eq_refl).
  right.
  exists 5, (Name 5 "i" Store),
    (Call 5 (Name 5 "range" Load) [Constant 5 (VInt 1000000)] []),
    [AugAssign 6 (Name 6 "result" Store) Add (Name 6 "i" Load)], [].
  split; [in_walk |]. left. repeat split; reflexivity.
Defined.

(** ** Type hints: the labels of the parameters *)









(** ** The driver's output *)








(** What the driver prints for the third sample. *)
Example debug_code_sample3 :
  debug_code sample_parse cpython_builtins sample3_code "Sample 3: Syntax Error"
  = [newline +:+ "==================== Debugging sample: Sample 3: Syntax Error ====================";
     "Code:";
     strip sample3_code;
     "--------------------------------------------------";
     "Errors found:";
     "  - SyntaxError: invalid syntax (<user_code>, line 1) at line 1";
     newline +:+ "No optimization suggestions.";
     newline +:+ "No code improvement suggestions."].
Proof. vm_compute. reflexivity. Qed.

(** ** An empty module *)

(** A text that parses to a module without statements (an empty text, blank
    lines, comments only) is not an error: the three sequences come back
    empty. *)
Theorem analyze_empty_module (ast_parse : string -> parse_outcome)
    (builtins_keys : gset string) (code_string : string) :
  ast_parse (strip code_string) = Parsed (Module []) ->
  fst (analyze ast_parse builtins_keys (init code_string)) =
  {| res_errors := []; res_optimizations := []; res_suggestions := [] |}.
Proof.
  intros Hp. unfold analyze, parse_code. simpl. rewrite Hp. reflexivity.
Qed.

Lemma analyze_empty_module_witness :
  fst (analyze (table_parse [(EmptyString, Module [])]) cpython_builtins
         (init "   ")) =
  {| res_errors := []; res_optimizations := []; res_suggestions := [] |}.
Proof.
  apply (analyze_empty_module (table_parse [(EmptyString, Module [])])
           cpython_builtins "   ").
  reflexivity.
Defined.
